(** * Rust AI player: behavior tree and decision engine

    A shallow embedding of [src/ai/behavior_tree.py] and
    [src/ai/decision_engine.py], with the properties of the design
    document proved over it.

    Python objects that [tick] mutates in place (a node's [status], a
    composite's [current_child_index]) are fields of the node value, and
    [tick] returns the node as it is after the call.  The node graph is a
    strict tree, so a value per node loses nothing.  What a leaf callable
    does to the outside world (device input, the context dict) is a
    transition on a world state [W]. *)

From Stdlib Require Import List String ZArith Bool Lia Floats.
Import ListNotations.
Local Open Scope string_scope.
Local Open Scope list_scope.

#[local] Set Warnings "-register-all,-inexact-float".

(** [l[i] = x] on a list, for an index inside it.  A composite holds its
    children by reference and a child's [tick] mutates the child in
    place: the list after the call is the list with that child replaced
    by its state after the call. *)
Fixpoint list_set {A : Type} (l : list A) (i : nat) (x : A) : list A :=
  match l, i with
  | [], _ => []
  | _ :: t, O => x :: t
  | h :: t, S k => h :: list_set t k x
  end.

(** ** Behavior tree ([behavior_tree.py]) *)

Module BT.

(** [class NodeStatus(Enum)] *)
Inductive NodeStatus : Type := SUCCESS | FAILURE | RUNNING.

Definition NodeStatus_eqb (a b : NodeStatus) : bool :=
  match a, b with
  | SUCCESS, SUCCESS | FAILURE, FAILURE | RUNNING, RUNNING => true
  | _, _ => false
  end.

(** How many of the statuses [sts] are [s]. *)
Definition count_status (s : NodeStatus) (sts : list NodeStatus) : Z :=
  Z.of_nat (List.length (filter (NodeStatus_eqb s) sts)).

(** The tallies of [ParallelNode.tick]. *)
Record Tally : Type := mkTally
  { success_count : Z; failure_count : Z; running_count : Z }.

Definition tally_zero : Tally := mkTally 0 0 0.

(** Lines 232-237: one more status counted. *)
Definition tally_add (t : Tally) (s : NodeStatus) : Tally :=
  match s with
  | SUCCESS => mkTally (success_count t + 1) (failure_count t) (running_count t)
  | FAILURE => mkTally (success_count t) (failure_count t + 1) (running_count t)
  | RUNNING => mkTally (success_count t) (failure_count t) (running_count t + 1)
  end.

Section Nodes.

(** The context dict handed to [tick], and the world the leaf callables
    act on. *)
Variable Ctx : Type.
Variable W : Type.

(** The five node classes.  Every node carries [name] and [status]
    ([BehaviorNode.__init__]); [SequenceNode] and [SelectorNode] add
    [children] and [current_child_index], [ParallelNode] adds [children]
    and [success_threshold]. *)
Inductive BehaviorNode : Type :=
| ActionNode (name : string) (status : NodeStatus)
    (action : Ctx -> W -> NodeStatus * W)
| ConditionNode (name : string) (status : NodeStatus)
    (condition : Ctx -> W -> bool * W)
| SequenceNode (name : string) (status : NodeStatus)
    (children : list BehaviorNode) (current_child_index : nat)
| SelectorNode (name : string) (status : NodeStatus)
    (children : list BehaviorNode) (current_child_index : nat)
| ParallelNode (name : string) (status : NodeStatus)
    (children : list BehaviorNode) (success_threshold : Z).

Definition node_status (n : BehaviorNode) : NodeStatus :=
  match n with
  | ActionNode _ s _ | ConditionNode _ s _ | SequenceNode _ s _ _
  | SelectorNode _ s _ _ | ParallelNode _ s _ _ => s
  end.

Definition node_name (n : BehaviorNode) : string :=
  match n with
  | ActionNode m _ _ | ConditionNode m _ _ | SequenceNode m _ _ _
  | SelectorNode m _ _ _ | ParallelNode m _ _ _ => m
  end.

Definition node_children (n : BehaviorNode) : list BehaviorNode :=
  match n with
  | ActionNode _ _ _ | ConditionNode _ _ _ => []
  | SequenceNode _ _ cs _ | SelectorNode _ _ cs _ | ParallelNode _ _ cs _ => cs
  end.

(** The cursor of a node that has one. *)
Definition node_cursor (n : BehaviorNode) : option nat :=
  match n with
  | SequenceNode _ _ _ i | SelectorNode _ _ _ i => Some i
  | _ => None
  end.

(** *** Constructors

    [__init__] of each class: the status starts as [FAILURE], the cursor
    as 0, and [children or []] turns a missing (or empty) argument into
    the empty list. *)
Definition ActionNode_init (name : string) (action : Ctx -> W -> NodeStatus * W)
  : BehaviorNode := ActionNode name FAILURE action.

Definition ConditionNode_init (name : string) (condition : Ctx -> W -> bool * W)
  : BehaviorNode := ConditionNode name FAILURE condition.

Definition children_or_empty (children : option (list BehaviorNode))
  : list BehaviorNode :=
  match children with
  | Some cs => cs
  | None => []
  end.

Definition SequenceNode_init (name : string) (children : option (list BehaviorNode))
  : BehaviorNode := SequenceNode name FAILURE (children_or_empty children) 0.

Definition SelectorNode_init (name : string) (children : option (list BehaviorNode))
  : BehaviorNode := SelectorNode name FAILURE (children_or_empty children) 0.

(** [success_threshold] defaults to 1. *)
Definition ParallelNode_init (name : string) (children : option (list BehaviorNode))
    (success_threshold : option Z) : BehaviorNode :=
  ParallelNode name FAILURE (children_or_empty children)
    (match success_threshold with Some t => t | None => 1%Z end).

(** [add_child]: [self.children.append(child)]. *)
Definition add_child (n child : BehaviorNode) : BehaviorNode :=
  match n with
  | SequenceNode m s cs i => SequenceNode m s (cs ++ [child]) i
  | SelectorNode m s cs i => SelectorNode m s (cs ++ [child]) i
  | ParallelNode m s cs t => ParallelNode m s (cs ++ [child]) t
  | _ => n
  end.

(** *** The loops of the composite nodes

    The loops are written over an arbitrary child type [C] with its tick
    [tick_child], so that [tick] below can pass itself for the children. *)
Section Loops.

Context {C : Type}.
Variable tick_child : C -> W -> NodeStatus * C * W.

(** [SequenceNode.tick], lines 115-134:
<<
    while self.current_child_index < len(self.children):
        child = self.children[self.current_child_index]
        status = child.tick(context)
        if status == FAILURE: self.current_child_index = 0; return FAILURE
        if status == RUNNING: return RUNNING
        self.current_child_index += 1
    self.current_child_index = 0
    return SUCCESS
>>
    The walk goes down the list of children; [skip] counts the children
    before the cursor, which the loop does not visit, and [pos] is the
    index of the head of [cs] in [self.children].  The result is the
    status returned, the cursor left behind, the children after the call
    and the world after the call. *)
Fixpoint sequence_loop (cs : list C) (skip pos : nat) (w : W)
  : NodeStatus * nat * list C * W :=
  match cs with
  | [] => (SUCCESS, 0, [], w)
  | c :: rest =>
      match skip with
      | S k =>
          let '(s, i, rest', w') := sequence_loop rest k (S pos) w in
          (s, i, c :: rest', w')
      | O =>
          let '(s, c', w1) := tick_child c w in
          match s with
          | FAILURE => (FAILURE, 0, c' :: rest, w1)
          | RUNNING => (RUNNING, pos, c' :: rest, w1)
          | SUCCESS =>
              let '(s2, i, rest', w2) := sequence_loop rest 0 (S pos) w1 in
              (s2, i, c' :: rest', w2)
          end
      end
  end.

(** [SelectorNode.tick], lines 169-188: the same loop with the roles of
    [SUCCESS] and [FAILURE] exchanged. *)
Fixpoint selector_loop (cs : list C) (skip pos : nat) (w : W)
  : NodeStatus * nat * list C * W :=
  match cs with
  | [] => (FAILURE, 0, [], w)
  | c :: rest =>
      match skip with
      | S k =>
          let '(s, i, rest', w') := selector_loop rest k (S pos) w in
          (s, i, c :: rest', w')
      | O =>
          let '(s, c', w1) := tick_child c w in
          match s with
          | SUCCESS => (SUCCESS, 0, c' :: rest, w1)
          | RUNNING => (RUNNING, pos, c' :: rest, w1)
          | FAILURE =>
              let '(s2, i, rest', w2) := selector_loop rest 0 (S pos) w1 in
              (s2, i, c' :: rest', w2)
          end
      end
  end.

(** [ParallelNode.tick], lines 229-237: [for child in self.children],
    every child ticked, its status counted. *)
Fixpoint parallel_loop (cs : list C) (t : Tally) (w : W)
  : Tally * list C * W :=
  match cs with
  | [] => (t, [], w)
  | c :: rest =>
      let '(s, c', w1) := tick_child c w in
      let '(t', rest', w2) := parallel_loop rest (tally_add t s) w1 in
      (t', c' :: rest', w2)
  end.

(** Every child ticked once, in order, the world threaded through: the
    statuses the children yield, the children after their ticks and the
    world after the last one. *)
Fixpoint tick_all (cs : list C) (w : W) : list NodeStatus * list C * W :=
  match cs with
  | [] => ([], [], w)
  | c :: rest =>
      let '(s, c', w1) := tick_child c w in
      let '(sts, rest', w2) := tick_all rest w1 in
      (s :: sts, c' :: rest', w2)
  end.

End Loops.

(** Lines 239-252: the verdict of a [ParallelNode] from its tallies. *)
Definition parallel_verdict (t : Tally) (total : nat) (success_threshold : Z)
  : NodeStatus :=
  if (success_count t >=? success_threshold)%Z then SUCCESS
  else
    let remaining := (Z.of_nat total - failure_count t)%Z in
    if (remaining <? success_threshold)%Z then FAILURE
    else RUNNING.

(** *** [tick]

    The result is the status returned, the node after the call and the
    world after the call. *)
Fixpoint tick (n : BehaviorNode) (ctx : Ctx) (w : W) {struct n}
  : NodeStatus * BehaviorNode * W :=
  match n with
  | ActionNode name _ action =>
      let '(s, w') := action ctx w in
      (s, ActionNode name s action, w')
  | ConditionNode name _ condition =>
      let '(result, w') := condition ctx w in
      let s := if result then SUCCESS else FAILURE in
      (s, ConditionNode name s condition, w')
  | SequenceNode name _ children idx =>
      let '(s, idx', children', w') :=
        sequence_loop (fun c => tick c ctx) children idx 0 w in
      (s, SequenceNode name s children' idx', w')
  | SelectorNode name _ children idx =>
      let '(s, idx', children', w') :=
        selector_loop (fun c => tick c ctx) children idx 0 w in
      (s, SelectorNode name s children' idx', w')
  | ParallelNode name _ children success_threshold =>
      let '(t, children', w') :=
        parallel_loop (fun c => tick c ctx) children tally_zero w in
      let s := parallel_verdict t (List.length children) success_threshold in
      (s, ParallelNode name s children' success_threshold, w')
  end.

(** *** [reset]

    [BehaviorNode.reset] sets the status to [FAILURE]; the composites
    override it to zero the cursor (Sequence, Selector) and reset every
    child. *)
Fixpoint reset (n : BehaviorNode) : BehaviorNode :=
  match n with
  | ActionNode name _ action => ActionNode name FAILURE action
  | ConditionNode name _ condition => ConditionNode name FAILURE condition
  | SequenceNode name _ children _ =>
      SequenceNode name FAILURE (map reset children) 0
  | SelectorNode name _ children _ =>
      SelectorNode name FAILURE (map reset children) 0
  | ParallelNode name _ children t =>
      ParallelNode name FAILURE (map reset children) t
  end.

(** *** Notions the properties are stated with *)

(** [tick_all] with the nodes' own [tick]. *)
Definition tick_each (cs : list BehaviorNode) (ctx : Ctx) (w : W)
  : list NodeStatus * list BehaviorNode * W :=
  tick_all (fun c => tick c ctx) cs w.

(** A node and all its descendants, in preorder. *)
Fixpoint subnodes (n : BehaviorNode) : list BehaviorNode :=
  n :: match n with
       | ActionNode _ _ _ | ConditionNode _ _ _ => []
       | SequenceNode _ _ cs _ | SelectorNode _ _ cs _ | ParallelNode _ _ cs _ =>
           flat_map subnodes cs
       end.

(** A node in the state [reset] leaves it in: status [FAILURE], and the
    cursor, where there is one, at 0. *)
Definition is_reset (n : BehaviorNode) : bool :=
  NodeStatus_eqb (node_status n) FAILURE &&
  match node_cursor n with
  | Some i => Nat.eqb i 0
  | None => true
  end.

(** Induction on a node with the property known of all its children. *)
Definition BehaviorNode_nested_ind (P : BehaviorNode -> Prop)
    (HA : forall name st action, P (ActionNode name st action))
    (HC : forall name st condition, P (ConditionNode name st condition))
    (HSeq : forall name st cs i, Forall P cs -> P (SequenceNode name st cs i))
    (HSel : forall name st cs i, Forall P cs -> P (SelectorNode name st cs i))
    (HPar : forall name st cs t, Forall P cs -> P (ParallelNode name st cs t))
  : forall n, P n :=
  fix go (n : BehaviorNode) : P n :=
    let all :=
      fix all (cs : list BehaviorNode) : Forall P cs :=
        match cs with
        | [] => Forall_nil P
        | c :: rest => Forall_cons c (go c) (all rest)
        end in
    match n with
    | ActionNode name st action => HA name st action
    | ConditionNode name st condition => HC name st condition
    | SequenceNode name st cs i => HSeq name st cs i (all cs)
    | SelectorNode name st cs i => HSel name st cs i (all cs)
    | ParallelNode name st cs t => HPar name st cs t (all cs)
    end.

(** [class BehaviorTree]: a holder of the root. *)
Record BehaviorTree : Type := mkBehaviorTree { root : BehaviorNode }.

Definition BehaviorTree_tick (t : BehaviorTree) (ctx : Ctx) (w : W)
  : NodeStatus * BehaviorTree * W :=
  let '(s, r, w') := tick (root t) ctx w in (s, mkBehaviorTree r, w').

Definition BehaviorTree_reset (t : BehaviorTree) : BehaviorTree :=
  mkBehaviorTree (reset (root t)).

End Nodes.

Arguments ActionNode {Ctx W} name status action.
Arguments ConditionNode {Ctx W} name status condition.
Arguments SequenceNode {Ctx W} name status children current_child_index.
Arguments SelectorNode {Ctx W} name status children current_child_index.
Arguments ParallelNode {Ctx W} name status children success_threshold.
Arguments node_status {Ctx W} n.
Arguments node_name {Ctx W} n.
Arguments node_children {Ctx W} n.
Arguments node_cursor {Ctx W} n.
Arguments ActionNode_init {Ctx W} name action.
Arguments ConditionNode_init {Ctx W} name condition.
Arguments SequenceNode_init {Ctx W} name children.
Arguments SelectorNode_init {Ctx W} name children.
Arguments ParallelNode_init {Ctx W} name children success_threshold.
Arguments add_child {Ctx W} n child.
Arguments sequence_loop {W C} tick_child cs skip pos w.
Arguments selector_loop {W C} tick_child cs skip pos w.
Arguments parallel_loop {W C} tick_child cs t w.
Arguments tick_all {W C} tick_child cs w.
Arguments tick {Ctx W} n ctx w.
Arguments reset {Ctx W} n.
Arguments tick_each {Ctx W} cs ctx w.
Arguments subnodes {Ctx W} n.
Arguments is_reset {Ctx W} n.
Arguments mkBehaviorTree {Ctx W} root.
Arguments root {Ctx W} b.
Arguments BehaviorTree_tick {Ctx W} t ctx w.
Arguments BehaviorTree_reset {Ctx W} t.

End BT.

(** ** Decision engine ([decision_engine.py]) *)

Module DE.

(** *** Python numbers

    [health] and [hunger] start as the int [100] and are overwritten with
    whatever number the perception payload carries; bounding boxes hold
    floats ([box.xyxy[0].tolist()]).  A float is an IEEE 754 binary64
    value. *)
Inductive number : Type :=
| PyInt (z : Z)
| PyFloat (f : float).

(** The value of a finite float is [m * 2^e]; Python compares a float
    with an int by value, without rounding the int.  [float_cmp_Z f k] is
    that comparison, [None] for a NaN (every ordered comparison with a
    NaN is false). *)
Definition float_cmp_Z (f : float) (k : Z) : option comparison :=
  match Prim2SF f with
  | S754_nan => None
  | S754_infinity s => Some (if s then Lt else Gt)
  | S754_zero _ => Some (0 ?= k)%Z
  | S754_finite s m e =>
      Some (if (0 <=? e)%Z
            then (cond_Zopp s (Zpos m) * 2 ^ e ?= k)%Z
            else (cond_Zopp s (Zpos m) ?= k * 2 ^ (- e))%Z)
  end.

Definition num_cmp (x : number) (k : Z) : option comparison :=
  match x with
  | PyInt z => Some (z ?= k)%Z
  | PyFloat f => float_cmp_Z f k
  end.

(** [x < k], [x > k] and [x >= k] for a number [x] and an int literal
    [k]. *)
Definition num_lt (x : number) (k : Z) : bool :=
  match num_cmp x k with Some Lt => true | _ => false end.

Definition num_gt (x : number) (k : Z) : bool :=
  match num_cmp x k with Some Gt => true | _ => false end.

Definition num_ge (x : number) (k : Z) : bool :=
  match num_cmp x k with Some (Gt | Eq) => true | _ => false end.

(** The builtin [min(a, b)]: [b] when [b < a], else [a]. *)
Definition py_min (a b : float) : float :=
  if (b <? a)%float then b else a.

(** *** Data *)

(** [class GameState(Enum)] *)
Inductive GameState : Type :=
| EXPLORING | GATHERING | BUILDING | COMBAT | FLEEING | LOOTING | CRAFTING | IDLE.

(** [class Priority(Enum)] *)
Inductive Priority : Type := CRITICAL | HIGH | MEDIUM | LOW | MINIMAL.

Definition Priority_value (p : Priority) : Z :=
  match p with
  | CRITICAL => 5 | HIGH => 4 | MEDIUM => 3 | LOW => 2 | MINIMAL => 1
  end%Z.

(** A detection, as [ObjectDetector.detect_objects] builds it. *)
Record Detection : Type := mkDetection
  { class_id : Z;
    class_name : string;
    confidence : float;
    bbox : list float;
    center : float * float }.

(** The values a decision's context dict holds. *)
Inductive Value : Type :=
| VNumber (x : number)
| VDetection (d : Detection)
| VString (s : string)
| VNone.

(** [class Decision] *)
Record Decision : Type := mkDecision
  { action : string;
    priority : Priority;
    context : list (string * Value) }.

(** The keys of [vision_data] that the engine reads; each may be
    missing. *)
Record VisionData : Type := mkVisionData
  { vd_detections : option (list Detection);
    vd_health : option number;
    vd_hunger : option number }.

(** [dict.get(key, default)] *)
Definition dict_get {A : Type} (d : option A) (default : A) : A :=
  match d with
  | Some v => v
  | None => default
  end.

(** [x in xs] for a list of strings. *)
Fixpoint str_in (x : string) (xs : list string) : bool :=
  match xs with
  | [] => false
  | y :: ys => if String.eqb x y then true else str_in x ys
  end.

(** Lookup in a dict literal, written as its list of items. *)
Fixpoint lookup {A : Type} (k : string) (d : list (string * A)) : option A :=
  match d with
  | [] => None
  | (k', v) :: d' => if String.eqb k k' then Some v else lookup k d'
  end.

Section Engine.

(** The configuration dict and the items of the inventory are opaque to
    the engine. *)
Variable Config : Type.
Variable Item : Type.

(** [class DecisionEngine] *)
Record DecisionEngine : Type := mkDecisionEngine
  { config : Config;
    current_state : GameState;
    health : number;
    hunger : number;
    inventory : list Item;
    nearby_threats : list Detection;
    nearby_resources : list Detection }.

(** [__init__] *)
Definition DecisionEngine_init (cfg : Config) : DecisionEngine :=
  {| config := cfg;
     current_state := IDLE;
     health := PyInt 100;
     hunger := PyInt 100;
     inventory := [];
     nearby_threats := [];
     nearby_resources := [] |}.

Definition threat_classes : list string := ["player"; "bear"; "wolf"; "scientist"].
Definition resource_classes : list string := ["tree"; "stone"; "ore"; "hemp"; "crate"].

(** [update_game_state] *)
Definition update_game_state (self : DecisionEngine) (vision_data : VisionData)
  : DecisionEngine :=
  let detections := dict_get (vd_detections vision_data) [] in
  {| config := config self;
     current_state := current_state self;
     health := dict_get (vd_health vision_data) (health self);
     hunger := dict_get (vd_hunger vision_data) (hunger self);
     inventory := inventory self;
     nearby_threats :=
       filter (fun d => str_in (class_name d) threat_classes) detections;
     nearby_resources :=
       filter (fun d => str_in (class_name d) resource_classes) detections |}.

(** [_select_best_resource] *)
Definition priority_order : list string := ["ore"; "stone"; "tree"; "hemp"; "crate"].

(** The inner loop: the first resource of class [resource_type]. *)
Fixpoint first_of_class (resource_type : string) (resources : list Detection)
  : option Detection :=
  match resources with
  | [] => None
  | resource :: rest =>
      if String.eqb (class_name resource) resource_type then Some resource
      else first_of_class resource_type rest
  end.

(** The outer loop over [priority_order]; [None] when it runs out. *)
Fixpoint first_by_priority (order : list string) (resources : list Detection)
  : option Detection :=
  match order with
  | [] => None
  | resource_type :: order' =>
      match first_of_class resource_type resources with
      | Some resource => Some resource
      | None => first_by_priority order' resources
      end
  end.

Definition _select_best_resource (self : DecisionEngine) : option Detection :=
  match nearby_resources self with
  | [] => None
  | first :: _ =>
      match first_by_priority priority_order (nearby_resources self) with
      | Some resource => Some resource
      | None => Some first
      end
  end.

Definition value_of_option (r : option Detection) : Value :=
  match r with
  | Some d => VDetection d
  | None => VNone
  end.

(** [make_decision] *)
Definition make_decision (self : DecisionEngine) : Decision :=
  if num_lt (health self) 20 then
    mkDecision "heal" CRITICAL [("health", VNumber (health self))]
  else
    match nearby_threats self with
    | threat :: _ =>
        if num_lt (health self) 50 then
          mkDecision "flee" CRITICAL [("threat", VDetection threat)]
        else
          mkDecision "combat" HIGH [("threat", VDetection threat)]
    | [] =>
        if num_lt (hunger self) 30 then
          mkDecision "find_food" HIGH [("hunger", VNumber (hunger self))]
        else
          match nearby_resources self with
          | _ :: _ =>
              let resource := _select_best_resource self in
              mkDecision "gather_resource" MEDIUM
                [("resource", value_of_option resource)]
          | [] =>
              if (Z.of_nat (List.length (inventory self)) <? 5)%Z then
                mkDecision "explore" LOW [("goal", VString "find_resources")]
              else
                mkDecision "explore" MINIMAL
                  [("goal", VString "general_exploration")]
          end
    end.

(** [evaluate_threat_level].  [bbox[i]] raises [IndexError] past the end
    of the list: the result is [None] then. *)
Definition threat_ratings : list (string * float) :=
  [("player", 0.9); ("bear", 0.95); ("wolf", 0.7); ("scientist", 0.85);
   ("boar", 0.3)]%float.

Definition evaluate_threat_level (self : DecisionEngine) (threat : Detection)
  : option float :=
  let base_threat := dict_get (lookup (class_name threat) threat_ratings) 0.5%float in
  let bbox := bbox threat in
  match nth_error bbox 2, nth_error bbox 0, nth_error bbox 3, nth_error bbox 1 with
  | Some b2, Some b0, Some b3, Some b1 =>
      let size := ((b2 - b0) * (b3 - b1))%float in
      let distance_factor := py_min 1 (size / 10000)%float in
      Some (py_min 1 (base_threat * (1 + distance_factor))%float)
  | _, _, _, _ => None
  end.

(** [should_engage_combat] *)
Definition should_engage_combat (self : DecisionEngine) (threat : Detection)
  : option bool :=
  match evaluate_threat_level self threat with
  | None => None
  | Some threat_level =>
      if num_lt (health self) 40 then Some false
      else if (0.8 <? threat_level)%float && num_lt (health self) 70 then Some false
      else Some (num_gt (health self) 60 && (threat_level <? 0.7)%float)
  end.

(** [calculate_flee_direction] *)
Definition calculate_flee_direction (self : DecisionEngine) (threat : Detection)
  : string :=
  let '(center_x, center_y) := center threat in
  match float_cmp_Z center_x 960 with
  | Some Lt => "right"
  | _ => "left"
  end.

(** [set_state] and [get_state] *)
Definition set_state (self : DecisionEngine) (state : GameState) : DecisionEngine :=
  {| config := config self;
     current_state := state;
     health := health self;
     hunger := hunger self;
     inventory := inventory self;
     nearby_threats := nearby_threats self;
     nearby_resources := nearby_resources self |}.

Definition get_state (self : DecisionEngine) : GameState := current_state self.

(** *** The public interface

    A call of one of the engine's methods, and what it does: the engine
    after the call and the value returned.  A method that only reads
    [self] leaves the engine as it is. *)
Inductive Call : Type :=
| call_update_game_state (vision_data : VisionData)
| call_make_decision
| call_set_state (state : GameState)
| call_get_state
| call_evaluate_threat_level (threat : Detection)
| call_should_engage_combat (threat : Detection)
| call_calculate_flee_direction (threat : Detection).

(** [RRaised] stands for the [IndexError] of a short [bbox]. *)
Inductive Result : Type :=
| RNone
| RDecision (d : Decision)
| RState (s : GameState)
| RFloat (x : float)
| RBool (b : bool)
| RString (s : string)
| RRaised.

Definition do_call (self : DecisionEngine) (c : Call) : DecisionEngine * Result :=
  match c with
  | call_update_game_state vision_data => (update_game_state self vision_data, RNone)
  | call_make_decision => (self, RDecision (make_decision self))
  | call_set_state state => (set_state self state, RNone)
  | call_get_state => (self, RState (get_state self))
  | call_evaluate_threat_level threat =>
      (self, match evaluate_threat_level self threat with
             | Some x => RFloat x
             | None => RRaised
             end)
  | call_should_engage_combat threat =>
      (self, match should_engage_combat self threat with
             | Some b => RBool b
             | None => RRaised
             end)
  | call_calculate_flee_direction threat =>
      (self, RString (calculate_flee_direction self threat))
  end.

(** The engine after a sequence of calls. *)
Definition run (self : DecisionEngine) (calls : list Call) : DecisionEngine :=
  fold_left (fun e c => fst (do_call e c)) calls self.

End Engine.

(** *** Notions the properties are stated with *)

(** The rating table in the words of the design document. *)
Definition base_rating (cname : string) : float :=
  if String.eqb cname "player" then 0.9
  else if String.eqb cname "bear" then 0.95
  else if String.eqb cname "wolf" then 0.7
  else if String.eqb cname "scientist" then 0.85
  else if String.eqb cname "boar" then 0.3
  else 0.5.

(** [min(1, base * (1 + distance_factor))] with
    [distance_factor = min(1, size / 10000)] and [size] the width times
    the height of the box [x1, y1, x2, y2]. *)
Definition threat_level_formula (cname : string) (x1 y1 x2 y2 : float) : float :=
  let base := base_rating cname in
  let size := ((x2 - x1) * (y2 - y1))%float in
  let distance_factor := py_min 1 (size / 10000)%float in
  py_min 1 (base * (1 + distance_factor))%float.

(** A float that is not negative: a zero of either sign, or a positive
    finite number or infinity.  A NaN is let through; what the proofs
    need of it is that it orders below nothing. *)
Definition sf_nonneg (x : spec_float) : Prop :=
  match x with
  | S754_nan | S754_zero _ => True
  | S754_infinity s | S754_finite s _ _ => s = false
  end.

(** A float with sign [sx], or a NaN. *)
Definition sf_signed (sx : bool) (x : spec_float) : Prop :=
  match x with
  | S754_nan => True
  | S754_zero s | S754_infinity s | S754_finite s _ _ => s = sx
  end.

(** [sub] is [l] with some elements left out, the others in the order
    they have in [l]. *)
Inductive subseq {A : Type} : list A -> list A -> Prop :=
| subseq_nil : subseq [] []
| subseq_skip (x : A) (sub l : list A) : subseq sub l -> subseq sub (x :: l)
| subseq_take (x : A) (sub l : list A) : subseq sub l -> subseq (x :: sub) (x :: l).

(** [best] is the resource the class order picks among [resources]: the
    first resource of class [ty], where no resource has a class that
    comes before [ty] in [order]; or, when no resource has a class of
    [order], the first resource. *)
Definition is_best (order : list string) (resources : list Detection)
    (best : Detection) : Prop :=
  (exists higher ty lower before after,
      order = higher ++ ty :: lower /\
      resources = before ++ best :: after /\
      class_name best = ty /\
      (forall d, In d before -> class_name d <> ty) /\
      (forall d, In d resources -> ~ In (class_name d) higher))
  \/ ((forall d, In d resources -> ~ In (class_name d) order) /\
      exists rest, resources = best :: rest).

Arguments mkDecisionEngine {Config Item}.
Arguments config {Config Item} d.
Arguments current_state {Config Item} d.
Arguments health {Config Item} d.
Arguments hunger {Config Item} d.
Arguments inventory {Config Item} d.
Arguments nearby_threats {Config Item} d.
Arguments nearby_resources {Config Item} d.
Arguments DecisionEngine_init {Config} Item cfg.
Arguments update_game_state {Config Item} self vision_data.
Arguments _select_best_resource {Config Item} self.
Arguments make_decision {Config Item} self.
Arguments evaluate_threat_level {Config Item} self threat.
Arguments should_engage_combat {Config Item} self threat.
Arguments calculate_flee_direction {Config Item} self threat.
Arguments set_state {Config Item} self state.
Arguments get_state {Config Item} self.
Arguments do_call {Config Item} self c.
Arguments run {Config Item} self calls.

End DE.

(** ** Sample trees and engine states

    Concrete inputs for the properties below.  The leaves act on a world
    that counts the leaf calls made so far. *)

Module Samples.
Import BT DE.

(** An action that yields [s] every time. *)
Definition always (s : NodeStatus) : unit -> nat -> NodeStatus * nat :=
  fun _ calls => (s, S calls).

(** An action that is Running until [k] leaf calls have been made. *)
Definition running_until (k : nat) : unit -> nat -> NodeStatus * nat :=
  fun _ calls => (if Nat.ltb calls k then RUNNING else SUCCESS, S calls).

Definition leaf (name : string) (st : NodeStatus)
    (action : unit -> nat -> NodeStatus * nat) : BehaviorNode unit nat :=
  ActionNode name st action.

Definition detection (cname : string) (x1 y1 x2 y2 : float) : Detection :=
  mkDetection 0 cname 0.9 [x1; y1; x2; y2]
    (((x1 + x2) / 2)%float, ((y1 + y2) / 2)%float).

Definition wolf : Detection := detection "wolf" 100 100 150 200.
Definition boar : Detection := detection "boar" 0 0 10 10.
Definition tree : Detection := detection "tree" 0 0 50 50.
Definition ore : Detection := detection "ore" 300 300 320 320.

(** An engine with the given health, threats and resources. *)
Definition engine (h : Z) (threats resources : list Detection)
  : DecisionEngine unit unit :=
  mkDecisionEngine tt IDLE (PyInt h) (PyInt 100) [] threats resources.

End Samples.

(** ** Further notions on trees *)

Module BTNotions.
Import BT.

(** The first of the statuses [sts] that is not [s0]; [s0] when there is
    none. *)
Definition first_status_not (s0 : NodeStatus) (sts : list NodeStatus) : NodeStatus :=
  match find (fun s => negb (NodeStatus_eqb s s0)) sts with
  | Some s => s
  | None => s0
  end.

Section Nodes.

Context {Ctx W : Type}.

(** The three parts of what [tick] returns. *)
Definition status_of (r : NodeStatus * BehaviorNode Ctx W * W) : NodeStatus :=
  fst (fst r).
Definition node_of (r : NodeStatus * BehaviorNode Ctx W * W) : BehaviorNode Ctx W :=
  snd (fst r).
Definition world_of (r : NodeStatus * BehaviorNode Ctx W * W) : W := snd r.

Definition is_action (n : BehaviorNode Ctx W) : bool :=
  match n with
  | ActionNode _ _ _ => true
  | _ => false
  end.

(** The cursor of a Sequence or Selector points at a child, or is 0. *)
Definition cursor_in_range (n : BehaviorNode Ctx W) : Prop :=
  match node_cursor n with
  | Some i => i = 0 \/ i < List.length (node_children n)
  | None => True
  end.

(** Every cursor in the tree is 0. *)
Definition cursors_zero (n : BehaviorNode Ctx W) : Prop :=
  Forall (fun m => node_cursor m = None \/ node_cursor m = Some 0) (subnodes n).

(** The callable of an ActionNode never returns Running. *)
Definition action_never_running (m : BehaviorNode Ctx W) : Prop :=
  match m with
  | ActionNode _ _ action => forall ctx w, fst (action ctx w) <> RUNNING
  | _ => True
  end.

(** No ActionNode of the tree has a callable that returns Running. *)
Definition never_running (n : BehaviorNode Ctx W) : Prop :=
  Forall action_never_running (subnodes n).

(** One tick per context of [ctxs], in order: the statuses returned, the
    node after the last tick and the world after it. *)
Fixpoint tick_many (n : BehaviorNode Ctx W) (ctxs : list Ctx) (w : W)
  : list NodeStatus * BehaviorNode Ctx W * W :=
  match ctxs with
  | [] => ([], n, w)
  | ctx :: rest =>
      let '(s, n1, w1) := tick n ctx w in
      let '(sts, n2, w2) := tick_many n1 rest w1 in
      (s :: sts, n2, w2)
  end.

End Nodes.

End BTNotions.

(** ** Further notions on the engine *)

Module DENotions.
Import DE.

(** The decision read off the detections of a payload, for an engine
    with the given health, hunger and inventory size: the first detection
    of a threat class decides flee or combat; the first detection of the
    best class present is what is gathered. *)
Definition decide_from (health hunger : number) (inventory_size : nat)
    (detections : list Detection) : Decision :=
  if num_lt health 20 then
    mkDecision "heal" CRITICAL [("health", VNumber health)]
  else
    match find (fun d => str_in (class_name d) threat_classes) detections with
    | Some threat =>
        if num_lt health 50 then
          mkDecision "flee" CRITICAL [("threat", VDetection threat)]
        else
          mkDecision "combat" HIGH [("threat", VDetection threat)]
    | None =>
        if num_lt hunger 30 then
          mkDecision "find_food" HIGH [("hunger", VNumber hunger)]
        else
          match first_by_priority priority_order detections with
          | Some resource =>
              mkDecision "gather_resource" MEDIUM [("resource", VDetection resource)]
          | None =>
              if (Z.of_nat inventory_size <? 5)%Z then
                mkDecision "explore" LOW [("goal", VString "find_resources")]
              else
                mkDecision "explore" MINIMAL [("goal", VString "general_exploration")]
          end
    end.

(** A call that is not [set_state]. *)
Definition not_set_state (c : Call) : Prop :=
  match c with
  | call_set_state _ => False
  | _ => True
  end.

(** A call that is not [update_game_state]. *)
Definition not_update (c : Call) : Prop :=
  match c with
  | call_update_game_state _ => False
  | _ => True
  end.

(** A call that is not an [update_game_state] whose payload has
    [health], respectively [hunger]. *)
Definition no_health (c : Call) : Prop :=
  match c with
  | call_update_game_state vision_data => vd_health vision_data = None
  | _ => True
  end.

Definition no_hunger (c : Call) : Prop :=
  match c with
  | call_update_game_state vision_data => vd_hunger vision_data = None
  | _ => True
  end.

End DENotions.

(** ** The tree of [build_rust_ai_tree] and the frame loop ([main.py]) *)

Module App.
Import BT DE.

Section Player.

(** A captured frame and the configuration dict are opaque here; the
    leaves of the built tree leave the world [W] as it is. *)
Variable Frame : Type.
Variable Config : Type.
Variable W : Type.

(** [vision_data] as [process_frame] builds it: the keys [detections],
    [frame] and [frame_count], and no other. *)
Record FrameData : Type := mkFrameData
  { fd_detections : list Detection;
    fd_frame : Frame;
    fd_frame_count : Z }.

(** What the engine reads of it: [detections] is there, [health] and
    [hunger] are not. *)
Definition engine_view (vision_data : FrameData) : VisionData :=
  mkVisionData (Some (fd_detections vision_data)) None None.

(** The context dict handed to the tree; the leaves read it with
    [ctx.get(key, default)], so each key may be missing. *)
Record Context : Type := mkContext
  { ctx_decision : option Decision;
    ctx_vision_data : option FrameData;
    ctx_health : option number;
    ctx_threats : option (list Detection);
    ctx_resources : option (list Detection) }.

(** The callables of the leaves of [build_rust_ai_tree]. *)

(** [lambda ctx: ctx.get('health', 100) < 30] *)
Definition low_health (ctx : Context) (w : W) : bool * W :=
  (num_lt (dict_get (ctx_health ctx) (PyInt 100)) 30, w).

(** [lambda ctx: len(ctx.get('threats', [])) > 0] *)
Definition enemy_nearby (ctx : Context) (w : W) : bool * W :=
  ((0 <? Z.of_nat (List.length (dict_get (ctx_threats ctx) [])))%Z, w).

(** [lambda ctx: len(ctx.get('resources', [])) > 0] *)
Definition resource_nearby (ctx : Context) (w : W) : bool * W :=
  ((0 <? Z.of_nat (List.length (dict_get (ctx_resources ctx) [])))%Z, w).

(** What the three guards read of the context. *)
Definition guard_survival (ctx : Context) : bool :=
  num_lt (dict_get (ctx_health ctx) (PyInt 100)) 30.
Definition guard_combat (ctx : Context) : bool :=
  (0 <? Z.of_nat (List.length (dict_get (ctx_threats ctx) [])))%Z.
Definition guard_gathering (ctx : Context) : bool :=
  (0 <? Z.of_nat (List.length (dict_get (ctx_resources ctx) [])))%Z.

(** [lambda ctx: NodeStatus.SUCCESS] *)
Definition succeed (ctx : Context) (w : W) : NodeStatus * W := (SUCCESS, w).

(** [build_rust_ai_tree]: the controllers are looked up and not used. *)
Definition build_rust_ai_tree {Controllers : Type} (controllers : Controllers)
  : BehaviorTree Context W :=
  let root := SelectorNode_init "Root Strategy" None in
  let survival := SequenceNode_init "Survival" None in
  let survival := add_child survival (ConditionNode_init "Low Health?" low_health) in
  let survival := add_child survival (ActionNode_init "Find Cover" succeed) in
  let survival := add_child survival (ActionNode_init "Heal" succeed) in
  let combat := SequenceNode_init "Combat" None in
  let combat := add_child combat (ConditionNode_init "Enemy Nearby?" enemy_nearby) in
  let combat := add_child combat (ActionNode_init "Aim at Enemy" succeed) in
  let combat := add_child combat (ActionNode_init "Shoot" succeed) in
  let gathering := SequenceNode_init "Gathering" None in
  let gathering :=
    add_child gathering (ConditionNode_init "Resource Nearby?" resource_nearby) in
  let gathering := add_child gathering (ActionNode_init "Move to Resource" succeed) in
  let gathering := add_child gathering (ActionNode_init "Gather" succeed) in
  let exploration := ActionNode_init "Explore" succeed in
  let root := add_child root survival in
  let root := add_child root combat in
  let root := add_child root gathering in
  let root := add_child root exploration in
  mkBehaviorTree root.

(** What the ticks of the built tree keep: no action returns Running,
    every cursor is 0, and the tree is the built one but for statuses. *)
Definition as_built {Controllers : Type} (controllers : Controllers)
    (t : BehaviorNode Context W) : Prop :=
  BTNotions.never_running t /\ BTNotions.cursors_zero t /\
  reset t = root (build_rust_ai_tree controllers).

(** [class RustAIPlayer]: the engine, the tree and the frame counter.
    The capture, the detector and the two controllers are outside. *)
Record RustAIPlayer : Type := mkRustAIPlayer
  { config : Config;
    decision_engine : DecisionEngine Config unit;
    behavior_tree : BehaviorTree Context W;
    frame_count : Z }.

(** [__init__] *)
Definition RustAIPlayer_init (cfg : Config) : RustAIPlayer :=
  {| config := cfg;
     decision_engine := DecisionEngine_init unit cfg;
     behavior_tree := build_rust_ai_tree tt;
     frame_count := 0 |}.

(** What [process_frame] returns. *)
Record FrameResult : Type := mkFrameResult
  { res_frame : Frame;
    res_detections : list Detection;
    res_decision : Decision;
    res_behavior_status : NodeStatus }.

(** [process_frame], given the frame the capture returned and the
    detections the detector found in it.  The debug overlay draws on the
    screen and changes nothing here. *)
Definition process_frame (self : RustAIPlayer) (frame : Frame)
    (detections : list Detection) (w : W) : RustAIPlayer * FrameResult * W :=
  let vision_data := mkFrameData detections frame (frame_count self) in
  let engine := update_game_state (decision_engine self) (engine_view vision_data) in
  let decision := make_decision engine in
  let context :=
    {| ctx_decision := Some decision;
       ctx_vision_data := Some vision_data;
       ctx_health := Some (health engine);
       ctx_threats := Some (nearby_threats engine);
       ctx_resources := Some (nearby_resources engine) |} in
  let '(behavior_status, tree, w') :=
    BehaviorTree_tick (behavior_tree self) context w in
  ({| config := config self;
      decision_engine := engine;
      behavior_tree := tree;
      frame_count := frame_count self |},
   mkFrameResult frame detections decision behavior_status,
   w').

(** The body of the loop of [run], timing apart: one frame processed,
    the counter moved on. *)
Definition run_step (self : RustAIPlayer) (frame : Frame)
    (detections : list Detection) (w : W) : RustAIPlayer * FrameResult * W :=
  let '(self1, result, w') := process_frame self frame detections w in
  ({| config := config self1;
      decision_engine := decision_engine self1;
      behavior_tree := behavior_tree self1;
      frame_count := frame_count self1 + 1 |},
   result, w').

(** The loop over the frames captured, each with its detections. *)
Fixpoint run_frames (self : RustAIPlayer) (frames : list (Frame * list Detection))
    (w : W) : RustAIPlayer * list FrameResult * W :=
  match frames with
  | [] => (self, [], w)
  | (frame, detections) :: rest =>
      let '(self1, result, w1) := run_step self frame detections w in
      let '(self2, results, w2) := run_frames self1 rest w1 in
      (self2, result :: results, w2)
  end.

(** What the frame loop keeps of the player. *)
Definition loop_invariant (p : RustAIPlayer) : Prop :=
  health (decision_engine p) = PyInt 100
  /\ hunger (decision_engine p) = PyInt 100
  /\ inventory (decision_engine p) = []
  /\ current_state (decision_engine p) = IDLE
  /\ as_built tt (root (behavior_tree p))
  /\ hd_error (map node_status (node_children (root (behavior_tree p)))) =
     Some FAILURE.

(** The decision of a frame of the loop, from its detections. *)
Definition frame_decision (detections : list Detection) : Decision :=
  match find (fun d => str_in (class_name d) threat_classes) detections with
  | Some threat => mkDecision "combat" HIGH [("threat", VDetection threat)]
  | None =>
      match first_by_priority priority_order detections with
      | Some resource =>
          mkDecision "gather_resource" MEDIUM [("resource", VDetection resource)]
      | None => mkDecision "explore" LOW [("goal", VString "find_resources")]
      end
  end.

End Player.

Arguments loop_invariant {Frame Config W} p.
Arguments mkFrameData {Frame}.
Arguments fd_detections {Frame} f.
Arguments fd_frame {Frame} f.
Arguments fd_frame_count {Frame} f.
Arguments engine_view {Frame} vision_data.
Arguments mkContext {Frame}.
Arguments ctx_decision {Frame} c.
Arguments ctx_vision_data {Frame} c.
Arguments ctx_health {Frame} c.
Arguments ctx_threats {Frame} c.
Arguments ctx_resources {Frame} c.
Arguments low_health {Frame W} ctx w.
Arguments enemy_nearby {Frame W} ctx w.
Arguments resource_nearby {Frame W} ctx w.
Arguments succeed {Frame W} ctx w.
Arguments guard_survival {Frame} ctx.
Arguments guard_combat {Frame} ctx.
Arguments guard_gathering {Frame} ctx.
Arguments build_rust_ai_tree {Frame W Controllers} controllers.
Arguments as_built {Frame W Controllers} controllers t.
Arguments mkRustAIPlayer {Frame Config W}.
Arguments config {Frame Config W} r.
Arguments decision_engine {Frame Config W} r.
Arguments behavior_tree {Frame Config W} r.
Arguments frame_count {Frame Config W} r.
Arguments RustAIPlayer_init {Frame Config} W cfg.
Arguments mkFrameResult {Frame}.
Arguments res_frame {Frame} f.
Arguments res_detections {Frame} f.
Arguments res_decision {Frame} f.
Arguments res_behavior_status {Frame} f.
Arguments process_frame {Frame Config W} self frame detections w.
Arguments run_step {Frame Config W} self frame detections w.
Arguments run_frames {Frame Config W} self frames w.

End App.

(** ** More sample trees *)

Module MoreSamples.
Import BT Samples.

(** A Sequence that parks on its second child. *)
Definition waiting_sequence : BehaviorNode unit nat :=
  SequenceNode "seq" FAILURE
    [leaf "a" FAILURE (always SUCCESS); leaf "b" FAILURE (running_until 5)] 0.

(** A Selector with stale statuses whose leaves never return Running. *)
Definition stale_selector : BehaviorNode unit nat :=
  SelectorNode "sel" SUCCESS
    [leaf "a" SUCCESS (always FAILURE); leaf "b" RUNNING (always SUCCESS)] 0.

(** A Parallel that needs both its children. *)
Definition strict_parallel : BehaviorNode unit nat :=
  ParallelNode "par" FAILURE
    [leaf "a" FAILURE (always SUCCESS); leaf "b" FAILURE (always FAILURE)] 2.

End MoreSamples.

(** * Properties of the behavior tree *)

Module BTProps.
Import BT.

(** [list_set] replaces the element at [i] and no other. *)
Lemma list_set_spec {A : Type} (l : list A) (i : nat) (x : A) :
  i < List.length l ->
  nth_error (list_set l i x) i = Some x /\
  forall j, j <> i -> nth_error (list_set l i x) j = nth_error l j.
Proof.
  revert i.
  induction l as [|c rest IH]; intros [|k] Hlt; cbn in *; try lia.
  - split; [reflexivity|]. intros [|j] Hj; [congruence|reflexivity].
  - destruct (IH k ltac:(lia)) as [Hk Hother].
    split; [exact Hk|].
    intros [|j] Hj; [reflexivity|]. cbn. apply Hother. congruence.
Qed.

Section Loops.

Context {W C : Type}.
Variable tick_child : C -> W -> NodeStatus * C * W.

(** The walk of [sequence_loop] is the [while] loop of the source: one
    turn of the loop at cursor [skip]. *)
Lemma sequence_loop_unfold (cs : list C) (skip pos : nat) (w : W) :
  sequence_loop tick_child cs skip pos w =
  match nth_error cs skip with
  | None => (SUCCESS, 0, cs, w)
  | Some c =>
      let '(s, c', w') := tick_child c w in
      match s with
      | FAILURE => (FAILURE, 0, list_set cs skip c', w')
      | RUNNING => (RUNNING, pos + skip, list_set cs skip c', w')
      | SUCCESS => sequence_loop tick_child (list_set cs skip c') (S skip) pos w'
      end
  end.
Proof.
  revert skip pos w.
  induction cs as [|c rest IH]; intros skip pos w.
  - destruct skip; reflexivity.
  - destruct skip as [|k]; cbn [sequence_loop nth_error list_set].
    + destruct (tick_child c w) as [[s c'] w1].
      destruct s; try reflexivity.
      now rewrite Nat.add_0_r.
    + rewrite IH.
      destruct (nth_error rest k) as [d|]; [|reflexivity].
      destruct (tick_child d w) as [[s d'] w1].
      destruct s; try reflexivity.
      now rewrite Nat.add_succ_comm.
Qed.

Lemma selector_loop_unfold (cs : list C) (skip pos : nat) (w : W) :
  selector_loop tick_child cs skip pos w =
  match nth_error cs skip with
  | None => (FAILURE, 0, cs, w)
  | Some c =>
      let '(s, c', w') := tick_child c w in
      match s with
      | SUCCESS => (SUCCESS, 0, list_set cs skip c', w')
      | RUNNING => (RUNNING, pos + skip, list_set cs skip c', w')
      | FAILURE => selector_loop tick_child (list_set cs skip c') (S skip) pos w'
      end
  end.
Proof.
  revert skip pos w.
  induction cs as [|c rest IH]; intros skip pos w.
  - destruct skip; reflexivity.
  - destruct skip as [|k]; cbn [selector_loop nth_error list_set].
    + destruct (tick_child c w) as [[s c'] w1].
      destruct s; try reflexivity.
      now rewrite Nat.add_0_r.
    + rewrite IH.
      destruct (nth_error rest k) as [d|]; [|reflexivity].
      destruct (tick_child d w) as [[s d'] w1].
      destruct s; try reflexivity.
      now rewrite Nat.add_succ_comm.
Qed.

(** When every child from the cursor on yields [SUCCESS], the loop runs
    to the end of the list. *)
Lemma sequence_loop_all_success (cs : list C) (skip pos : nat) (w : W)
    (sts : list NodeStatus) (cs' : list C) (w' : W) :
  tick_all tick_child (skipn skip cs) w = (sts, cs', w') ->
  Forall (fun s => s = SUCCESS) sts ->
  sequence_loop tick_child cs skip pos w = (SUCCESS, 0, firstn skip cs ++ cs', w').
Proof.
  revert skip pos w sts cs' w'.
  induction cs as [|c rest IH]; intros skip pos w sts cs' w' Hall Hsts.
  - destruct skip; cbn in Hall; injection Hall as <- <- <-; reflexivity.
  - destruct skip as [|k]; cbn [skipn firstn app] in *.
    + cbn [tick_all sequence_loop] in *.
      destruct (tick_child c w) as [[s c1] w1].
      destruct (tick_all tick_child rest w1) as [[sts1 rest1] w2] eqn:Hrest.
      injection Hall as <- <- <-.
      inversion Hsts as [|? ? Hs Hsts1]; subst.
      now rewrite (IH 0 (S pos) w1 sts1 rest1 w2 Hrest Hsts1).
    + cbn [sequence_loop].
      now rewrite (IH k (S pos) w sts cs' w' Hall Hsts).
Qed.

Lemma selector_loop_all_failure (cs : list C) (skip pos : nat) (w : W)
    (sts : list NodeStatus) (cs' : list C) (w' : W) :
  tick_all tick_child (skipn skip cs) w = (sts, cs', w') ->
  Forall (fun s => s = FAILURE) sts ->
  selector_loop tick_child cs skip pos w = (FAILURE, 0, firstn skip cs ++ cs', w').
Proof.
  revert skip pos w sts cs' w'.
  induction cs as [|c rest IH]; intros skip pos w sts cs' w' Hall Hsts.
  - destruct skip; cbn in Hall; injection Hall as <- <- <-; reflexivity.
  - destruct skip as [|k]; cbn [skipn firstn app] in *.
    + cbn [tick_all selector_loop] in *.
      destruct (tick_child c w) as [[s c1] w1].
      destruct (tick_all tick_child rest w1) as [[sts1 rest1] w2] eqn:Hrest.
      injection Hall as <- <- <-.
      inversion Hsts as [|? ? Hs Hsts1]; subst.
      now rewrite (IH 0 (S pos) w1 sts1 rest1 w2 Hrest Hsts1).
    + cbn [selector_loop].
      now rewrite (IH k (S pos) w sts cs' w' Hall Hsts).
Qed.

(** [tick_all] yields one status per child. *)
Lemma tick_all_length (cs : list C) (w : W) :
  List.length (fst (fst (tick_all tick_child cs w))) = List.length cs /\
  List.length (snd (fst (tick_all tick_child cs w))) = List.length cs.
Proof.
  revert w. induction cs as [|c rest IH]; intros w; [split; reflexivity|].
  cbn [tick_all].
  destruct (tick_child c w) as [[s c1] w1].
  specialize (IH w1).
  destruct (tick_all tick_child rest w1) as [[sts1 rest1] w2].
  cbn in *. now destruct IH as [-> ->].
Qed.

(** The tallies of the [for] loop count the statuses of [tick_all]. *)
Lemma tally_add_counts (t : Tally) (sts : list NodeStatus) :
  let t' := fold_left tally_add sts t in
  (success_count t' = success_count t + count_status SUCCESS sts)%Z /\
  (failure_count t' = failure_count t + count_status FAILURE sts)%Z /\
  (running_count t' = running_count t + count_status RUNNING sts)%Z.
Proof.
  revert t. induction sts as [|s sts IH]; intros t; cbn zeta.
  - unfold count_status; cbn. lia.
  - cbn [fold_left]. specialize (IH (tally_add t s)). cbn zeta in IH.
    destruct IH as (-> & -> & ->).
    unfold count_status.
    destruct s; cbn [tally_add success_count failure_count running_count
                       filter NodeStatus_eqb List.length]; lia.
Qed.

Lemma parallel_loop_tick_all (cs : list C) (t : Tally) (w : W) :
  parallel_loop tick_child cs t w =
  let '(sts, cs', w') := tick_all tick_child cs w in
  (fold_left tally_add sts t, cs', w').
Proof.
  revert t w. induction cs as [|c rest IH]; intros t w; [reflexivity|].
  cbn [parallel_loop tick_all].
  destruct (tick_child c w) as [[s c1] w1].
  rewrite IH.
  now destruct (tick_all tick_child rest w1) as [[sts1 rest1] w2].
Qed.

End Loops.

Section Ticks.

Variables Ctx W : Type.

Abbreviation Node := (BehaviorNode Ctx W).

(** One turn of [SequenceNode.tick]'s loop, on the node itself. *)
Lemma SequenceNode_tick_unfold (name : string) (st : NodeStatus)
    (cs : list Node) (i : nat) (ctx : Ctx) (w : W) :
  tick (SequenceNode name st cs i) ctx w =
  match nth_error cs i with
  | None => (SUCCESS, SequenceNode name SUCCESS cs 0, w)
  | Some child =>
      let '(s, child', w') := tick child ctx w in
      match s with
      | FAILURE => (FAILURE, SequenceNode name FAILURE (list_set cs i child') 0, w')
      | RUNNING => (RUNNING, SequenceNode name RUNNING (list_set cs i child') i, w')
      | SUCCESS => tick (SequenceNode name st (list_set cs i child') (S i)) ctx w'
      end
  end.
Proof.
  cbn [tick]. rewrite sequence_loop_unfold.
  destruct (nth_error cs i) as [c|]; [|reflexivity].
  destruct (tick c ctx w) as [[s c'] w1].
  destruct s; reflexivity.
Qed.

Lemma SelectorNode_tick_unfold (name : string) (st : NodeStatus)
    (cs : list Node) (i : nat) (ctx : Ctx) (w : W) :
  tick (SelectorNode name st cs i) ctx w =
  match nth_error cs i with
  | None => (FAILURE, SelectorNode name FAILURE cs 0, w)
  | Some child =>
      let '(s, child', w') := tick child ctx w in
      match s with
      | SUCCESS => (SUCCESS, SelectorNode name SUCCESS (list_set cs i child') 0, w')
      | RUNNING => (RUNNING, SelectorNode name RUNNING (list_set cs i child') i, w')
      | FAILURE => tick (SelectorNode name st (list_set cs i child') (S i)) ctx w'
      end
  end.
Proof.
  cbn [tick]. rewrite selector_loop_unfold.
  destruct (nth_error cs i) as [c|]; [|reflexivity].
  destruct (tick c ctx w) as [[s c'] w1].
  destruct s; reflexivity.
Qed.

(** C2.  [SequenceNode.tick] works from the stored cursor forward.  One
    turn of its loop at cursor [i]: past the last child, the cursor goes
    back to 0 and the node returns Success; a child's Failure puts the
    cursor at 0 and returns Failure; a child's Running leaves the cursor
    on that child, which is the one the next call ticks, and returns
    Running; a child's Success moves the cursor on and the same call goes
    on with the next child.  Only the child at the cursor is ticked in a
    turn; the others are as they were.  When every child from the cursor on yields
    Success the node returns Success with the cursor at 0.  With children
    yielding Success, Running, Success the node returns Running with the
    cursor at 1, and a later call in which child 1 and child 2 yield
    Success returns Success with the cursor at 0, child 0 not ticked
    again. *)
Theorem SequenceNode_tick_spec (name : string) (st : NodeStatus)
    (cs : list Node) (i : nat) (ctx : Ctx) (w : W) :
  tick (SequenceNode name st cs i) ctx w =
  match nth_error cs i with
  | None => (SUCCESS, SequenceNode name SUCCESS cs 0, w)
  | Some child =>
      let '(s, child', w') := tick child ctx w in
      match s with
      | FAILURE => (FAILURE, SequenceNode name FAILURE (list_set cs i child') 0, w')
      | RUNNING => (RUNNING, SequenceNode name RUNNING (list_set cs i child') i, w')
      | SUCCESS => tick (SequenceNode name st (list_set cs i child') (S i)) ctx w'
      end
  end
  /\ (forall child', i < List.length cs ->
        nth_error (list_set cs i child') i = Some child' /\
        forall j, j <> i -> nth_error (list_set cs i child') j = nth_error cs j)
  /\ (forall sts cs' w',
        tick_each (skipn i cs) ctx w = (sts, cs', w') ->
        Forall (fun s => s = SUCCESS) sts ->
        tick (SequenceNode name st cs i) ctx w =
        (SUCCESS, SequenceNode name SUCCESS (firstn i cs ++ cs') 0, w'))
  /\ (forall c0 c1 c2 c0' c1' w1 w2,
        tick c0 ctx w = (SUCCESS, c0', w1) ->
        tick c1 ctx w1 = (RUNNING, c1', w2) ->
        tick (SequenceNode name st [c0; c1; c2] 0) ctx w =
        (RUNNING, SequenceNode name RUNNING [c0'; c1'; c2] 1, w2)
        /\ forall ctx2 w3 c1'' w4 c2' w5,
            tick c1' ctx2 w3 = (SUCCESS, c1'', w4) ->
            tick c2 ctx2 w4 = (SUCCESS, c2', w5) ->
            tick (SequenceNode name RUNNING [c0'; c1'; c2] 1) ctx2 w3 =
            (SUCCESS, SequenceNode name SUCCESS [c0'; c1''; c2'] 0, w5)).
Proof.
  split; [apply SequenceNode_tick_unfold|].
  split; [|split].
  - intros child'. apply list_set_spec.
  - intros sts cs' w' Hall Hsts. cbn [tick].
    now rewrite (sequence_loop_all_success _ _ _ _ _ _ _ _ Hall Hsts).
  - intros c0 c1 c2 c0' c1' w1 w2 H0 H1. split.
    + rewrite SequenceNode_tick_unfold. cbn [nth_error list_set]. rewrite H0.
      rewrite SequenceNode_tick_unfold. cbn [nth_error list_set]. rewrite H1.
      reflexivity.
    + intros ctx2 w3 c1'' w4 c2' w5 H1' H2.
      rewrite SequenceNode_tick_unfold. cbn [nth_error list_set]. rewrite H1'.
      rewrite SequenceNode_tick_unfold. cbn [nth_error list_set]. rewrite H2.
      rewrite SequenceNode_tick_unfold. reflexivity.
Qed.

(** C3.  [SelectorNode.tick] is [SequenceNode.tick] with Success and
    Failure exchanged.  One turn of its loop at cursor [i]: past the last
    child, the cursor goes back to 0 and the node returns Failure; a
    child's Success puts the cursor at 0 and returns Success, no later
    child ticked; a child's Running leaves the cursor on that child and
    returns Running; a child's Failure moves the cursor on and the same
    call goes on with the next child.  When every child from the cursor
    on yields Failure the node returns Failure with the cursor at 0. *)
Theorem SelectorNode_tick_spec (name : string) (st : NodeStatus)
    (cs : list Node) (i : nat) (ctx : Ctx) (w : W) :
  tick (SelectorNode name st cs i) ctx w =
  match nth_error cs i with
  | None => (FAILURE, SelectorNode name FAILURE cs 0, w)
  | Some child =>
      let '(s, child', w') := tick child ctx w in
      match s with
      | SUCCESS => (SUCCESS, SelectorNode name SUCCESS (list_set cs i child') 0, w')
      | RUNNING => (RUNNING, SelectorNode name RUNNING (list_set cs i child') i, w')
      | FAILURE => tick (SelectorNode name st (list_set cs i child') (S i)) ctx w'
      end
  end
  /\ (forall child', i < List.length cs ->
        nth_error (list_set cs i child') i = Some child' /\
        forall j, j <> i -> nth_error (list_set cs i child') j = nth_error cs j)
  /\ (forall sts cs' w',
        tick_each (skipn i cs) ctx w = (sts, cs', w') ->
        Forall (fun s => s = FAILURE) sts ->
        tick (SelectorNode name st cs i) ctx w =
        (FAILURE, SelectorNode name FAILURE (firstn i cs ++ cs') 0, w')).
Proof.
  split; [apply SelectorNode_tick_unfold|].
  split.
  - intros child'. apply list_set_spec.
  - intros sts cs' w' Hall Hsts. cbn [tick].
    now rewrite (selector_loop_all_failure _ _ _ _ _ _ _ _ Hall Hsts).
Qed.

(** C4.  [ParallelNode.tick] ticks every child, whatever the earlier
    children yielded and whatever the node's status was before, and
    decides from the counts: Success when the number of successes reaches
    the threshold, else Failure when the number of children less the
    number of failures is below the threshold, else Running.  With three
    children and threshold 2: Success, Success, Running gives Success;
    Failure, Failure, Running gives Failure; Success, Running, Running
    gives Running. *)
Theorem ParallelNode_tick_spec (name : string) (st : NodeStatus)
    (cs : list Node) (threshold : Z) (ctx : Ctx) (w : W) :
  (let '(sts, cs', w') := tick_each cs ctx w in
   let s :=
     if (count_status SUCCESS sts >=? threshold)%Z then SUCCESS
     else if (Z.of_nat (List.length cs) - count_status FAILURE sts <? threshold)%Z
          then FAILURE
          else RUNNING in
   List.length sts = List.length cs /\
   tick (ParallelNode name st cs threshold) ctx w =
   (s, ParallelNode name s cs' threshold, w'))
  /\ (forall st', tick (ParallelNode name st' cs threshold) ctx w =
                  tick (ParallelNode name st cs threshold) ctx w)
  /\ (forall c0 c1 c2 s0 s1 s2 c0' c1' c2' w1 w2 w3,
        tick c0 ctx w = (s0, c0', w1) ->
        tick c1 ctx w1 = (s1, c1', w2) ->
        tick c2 ctx w2 = (s2, c2', w3) ->
        forall verdict,
        ([s0; s1; s2] = [SUCCESS; SUCCESS; RUNNING] /\ verdict = SUCCESS) \/
        ([s0; s1; s2] = [FAILURE; FAILURE; RUNNING] /\ verdict = FAILURE) \/
        ([s0; s1; s2] = [SUCCESS; RUNNING; RUNNING] /\ verdict = RUNNING) ->
        tick (ParallelNode name st [c0; c1; c2] 2) ctx w =
        (verdict, ParallelNode name verdict [c0'; c1'; c2'] 2, w3)).
Proof.
  split; [|split].
  - pose proof (tick_all_length (fun c => tick c ctx) cs w) as [Hlen _].
    cbn [tick]. rewrite parallel_loop_tick_all.
    unfold tick_each in *.
    destruct (tick_all (fun c => tick c ctx) cs w) as [[sts cs'] w'].
    cbn [fst] in Hlen. split; [exact Hlen|].
    pose proof (tally_add_counts tally_zero sts) as (Hs & Hf & _).
    cbn zeta in Hs, Hf. unfold parallel_verdict.
    rewrite Hs, Hf. cbn [tally_zero success_count failure_count].
    rewrite !Z.add_0_l. reflexivity.
  - reflexivity.
  - intros c0 c1 c2 s0 s1 s2 c0' c1' c2' w1 w2 w3 H0 H1 H2 verdict Hcase.
    cbn [tick parallel_loop]. rewrite H0, H1, H2.
    destruct Hcase as [[E ->]|[[E ->]|[E ->]]];
      injection E as -> -> ->; reflexivity.
Qed.

(** Every node in the list is in the state [reset] leaves a node in. *)
Lemma subnodes_reset_all (n : Node) :
  Forall (fun m => is_reset m = true) (subnodes (reset n)).
Proof.
  induction n as [name st a|name st c|name st cs i IH|name st cs i IH|name st cs t IH]
    using BehaviorNode_nested_ind;
    cbn [reset subnodes]; constructor; try reflexivity; try constructor.
  all: induction IH as [|c rest Hc _ IHrest]; cbn [map flat_map];
    [constructor | apply Forall_app; split; assumption].
Qed.

(** [reset] keeps the shape of the tree: the same nodes in the same
    places, with their names. *)
Lemma subnodes_reset_names (n : Node) :
  map node_name (subnodes (reset n)) = map node_name (subnodes n).
Proof.
  induction n as [name st a|name st c|name st cs i IH|name st cs i IH|name st cs t IH]
    using BehaviorNode_nested_ind;
    cbn [reset subnodes map node_name]; try reflexivity; f_equal.
  all: induction IH as [|c rest Hc _ IHrest]; cbn [map flat_map];
    [reflexivity | rewrite !map_app; congruence].
Qed.

(** C6.  [reset] on a composite sets its status to Failure, puts its
    cursor (Sequence and Selector have one) at 0 and resets every child;
    afterwards every node of the subtree, the composite included, has
    status Failure and every cursor in it is 0, and the tree has the same
    shape as before. *)
Theorem reset_spec (name : string) (st : NodeStatus) (cs : list Node)
    (i : nat) (t : Z) :
  reset (SequenceNode name st cs i) = SequenceNode name FAILURE (map reset cs) 0
  /\ reset (SelectorNode name st cs i) = SelectorNode name FAILURE (map reset cs) 0
  /\ reset (ParallelNode name st cs t) = ParallelNode name FAILURE (map reset cs) t
  /\ (forall n : Node,
        Forall (fun m => node_status m = FAILURE /\
                         (node_cursor m = None \/ node_cursor m = Some 0))
               (subnodes (reset n))
        /\ map node_name (subnodes (reset n)) = map node_name (subnodes n)).
Proof.
  repeat split; try reflexivity.
  - eapply Forall_impl; [|apply subnodes_reset_all].
    intros m Hm. unfold is_reset in Hm.
    apply andb_true_iff in Hm as [Hs Hc].
    split.
    + now destruct (node_status m).
    + destruct (node_cursor m) as [k|]; [right|now left].
      apply Nat.eqb_eq in Hc. now subst.
  - apply subnodes_reset_names.
Qed.

(** C9.  A composite with no children is built without error and ticks
    without error: an empty Sequence returns Success with cursor 0, an
    empty Selector returns Failure with cursor 0, an empty Parallel
    returns Failure when its threshold is at least 1 and Success when it
    is at most 0. *)
Theorem empty_composite_tick (name : string) (st : NodeStatus) (i : nat)
    (threshold : Z) (ctx : Ctx) (w : W) :
  tick (SequenceNode name st [] i) ctx w = (SUCCESS, SequenceNode name SUCCESS [] 0, w)
  /\ tick (SelectorNode name st [] i) ctx w = (FAILURE, SelectorNode name FAILURE [] 0, w)
  /\ tick (ParallelNode name st [] threshold) ctx w =
     (if (threshold <=? 0)%Z then SUCCESS else FAILURE,
      ParallelNode name (if (threshold <=? 0)%Z then SUCCESS else FAILURE) [] threshold,
      w)
  /\ ((1 <= threshold)%Z ->
      tick (ParallelNode name st [] threshold) ctx w =
      (FAILURE, ParallelNode name FAILURE [] threshold, w))
  /\ ((threshold <= 0)%Z ->
      tick (ParallelNode name st [] threshold) ctx w =
      (SUCCESS, ParallelNode name SUCCESS [] threshold, w))
  /\ @SequenceNode_init Ctx W name None = SequenceNode name FAILURE [] 0
  /\ @SequenceNode_init Ctx W name (Some []) = SequenceNode name FAILURE [] 0
  /\ @SelectorNode_init Ctx W name None = SelectorNode name FAILURE [] 0
  /\ @SelectorNode_init Ctx W name (Some []) = SelectorNode name FAILURE [] 0
  /\ @ParallelNode_init Ctx W name None (Some threshold) = ParallelNode name FAILURE [] threshold
  /\ @ParallelNode_init Ctx W name (Some []) None = ParallelNode name FAILURE [] 1.
Proof.
  assert (Hpar : tick (ParallelNode name st [] threshold) ctx w =
     (if (threshold <=? 0)%Z then SUCCESS else FAILURE,
      ParallelNode name (if (threshold <=? 0)%Z then SUCCESS else FAILURE) [] threshold,
      w)).
  { cbn [tick parallel_loop]. unfold parallel_verdict.
    cbn [tally_zero success_count failure_count List.length].
    destruct (Z.leb_spec threshold 0) as [Hle|Hgt].
    - destruct (Z.geb_spec 0 threshold); [reflexivity|lia].
    - destruct (Z.geb_spec 0 threshold); [lia|].
      destruct (Z.ltb_spec (Z.of_nat 0 - 0) threshold); [reflexivity|lia]. }
  split; [now destruct i|].
  split; [now destruct i|].
  split; [exact Hpar|].
  split; [|split].
  - intros H. rewrite Hpar.
    destruct (Z.leb_spec threshold 0); [lia|reflexivity].
  - intros H. rewrite Hpar.
    destruct (Z.leb_spec threshold 0); [reflexivity|lia].
  - repeat split.
Qed.

End Ticks.

Import Samples.

(** A Sequence of Success, Running-then-Success, Success: the first call
    parks at child 1, the second finishes. *)
Lemma SequenceNode_tick_spec_witness :
  tick (SequenceNode "seq" FAILURE
          [leaf "a" FAILURE (always SUCCESS); leaf "b" FAILURE (running_until 2);
           leaf "c" FAILURE (always SUCCESS)] 0) tt 0 =
  (RUNNING,
   SequenceNode "seq" RUNNING
     [leaf "a" SUCCESS (always SUCCESS); leaf "b" RUNNING (running_until 2);
      leaf "c" FAILURE (always SUCCESS)] 1, 2)
  /\ tick (SequenceNode "seq" RUNNING
             [leaf "a" SUCCESS (always SUCCESS); leaf "b" RUNNING (running_until 2);
              leaf "c" FAILURE (always SUCCESS)] 1) tt 2 =
     (SUCCESS,
      SequenceNode "seq" SUCCESS
        [leaf "a" SUCCESS (always SUCCESS); leaf "b" SUCCESS (running_until 2);
         leaf "c" SUCCESS (always SUCCESS)] 0, 4).
Proof.
  destruct (SequenceNode_tick_spec unit nat "seq" FAILURE [] 0 tt 0)
    as (_ & _ & _ & H).
  destruct (H (leaf "a" FAILURE (always SUCCESS)) (leaf "b" FAILURE (running_until 2))
              (leaf "c" FAILURE (always SUCCESS))
              (leaf "a" SUCCESS (always SUCCESS)) (leaf "b" RUNNING (running_until 2))
              1 2 eq_refl eq_refl) as [H1 H2].
  split; [exact H1|].
  exact (H2 tt 2 (leaf "b" SUCCESS (running_until 2)) 3
            (leaf "c" SUCCESS (always SUCCESS)) 4 eq_refl eq_refl).
Defined.

(** A Selector whose two children fail. *)
Lemma SelectorNode_tick_spec_witness :
  tick (SelectorNode "sel" RUNNING
          [leaf "a" FAILURE (always FAILURE); leaf "b" SUCCESS (always FAILURE)] 0)
       tt 0 =
  (FAILURE,
   SelectorNode "sel" FAILURE
     [leaf "a" FAILURE (always FAILURE); leaf "b" FAILURE (always FAILURE)] 0, 2).
Proof.
  destruct (SelectorNode_tick_spec unit nat "sel" RUNNING
              [leaf "a" FAILURE (always FAILURE); leaf "b" SUCCESS (always FAILURE)]
              0 tt 0) as (_ & _ & H).
  apply (H [FAILURE; FAILURE]
           [leaf "a" FAILURE (always FAILURE); leaf "b" FAILURE (always FAILURE)] 2
           eq_refl).
  repeat constructor.
Defined.

(** Three children, threshold 2, statuses Success, Success, Running. *)
Lemma ParallelNode_tick_spec_witness :
  tick (ParallelNode "par" FAILURE
          [leaf "a" FAILURE (always SUCCESS); leaf "b" FAILURE (always SUCCESS);
           leaf "c" FAILURE (always RUNNING)] 2) tt 0 =
  (SUCCESS,
   ParallelNode "par" SUCCESS
     [leaf "a" SUCCESS (always SUCCESS); leaf "b" SUCCESS (always SUCCESS);
      leaf "c" RUNNING (always RUNNING)] 2, 3).
Proof.
  destruct (ParallelNode_tick_spec unit nat "par" FAILURE [] 2 tt 0) as (_ & _ & H).
  apply (H (leaf "a" FAILURE (always SUCCESS)) (leaf "b" FAILURE (always SUCCESS))
           (leaf "c" FAILURE (always RUNNING)) SUCCESS SUCCESS RUNNING
           (leaf "a" SUCCESS (always SUCCESS)) (leaf "b" SUCCESS (always SUCCESS))
           (leaf "c" RUNNING (always RUNNING)) 1 2 3 eq_refl eq_refl eq_refl).
  left. split; reflexivity.
Defined.

(** An empty Parallel with the default threshold 1 fails. *)
Lemma empty_composite_tick_witness :
  (1 <= 1)%Z /\
  tick (ParallelNode "par" RUNNING [] 1 : BehaviorNode unit nat) tt 0 =
  (FAILURE, ParallelNode "par" FAILURE [] 1, 0).
Proof.
  split; [lia|].
  destruct (empty_composite_tick unit nat "par" RUNNING 0 1 tt 0)
    as (_ & _ & _ & H & _).
  apply H. lia.
Defined.

End BTProps.



(** * Properties of the decision engine *)

Module DEProps.
Import DE.

(** ** Floats

    The operations on floats are specified by their counterparts on
    [spec_float]; what the bounds below need is the sign of a result. *)

Lemma binary_round_aux_signed (sx : bool) (mx ex : Z) (lx : location) :
  sf_signed sx (binary_round_aux prec emax sx mx ex lx).
Proof.
  unfold binary_round_aux.
  destruct (shr_fexp prec emax mx ex lx) as [mrs' e'].
  destruct (shr_fexp prec emax _ e' loc_Exact) as [mrs'' e''].
  destruct (shr_m mrs''); cbn; trivial.
  destruct (Z.leb e'' _); reflexivity.
Qed.

Lemma binary_round_signed (sx : bool) (mx : positive) (ex : Z) :
  sf_signed sx (binary_round prec emax sx mx ex).
Proof.
  unfold binary_round.
  destruct (shl_align _ _ _) as [mz ez].
  apply binary_round_aux_signed.
Qed.

Lemma sf_signed_nonneg (x : spec_float) : sf_signed false x -> sf_nonneg x.
Proof. destruct x; cbn; trivial. Qed.

Lemma SF64mul_nonneg (x y : spec_float) :
  sf_nonneg x -> sf_nonneg y -> sf_nonneg (SF64mul x y).
Proof.
  destruct x as [sx|sx| |sx mx ex], y as [sy|sy| |sy my ey]; cbn; trivial;
    intros; subst; trivial.
  apply sf_signed_nonneg, binary_round_aux_signed.
Qed.

Lemma SF64div_nonneg (x : spec_float) (m : positive) (e : Z) :
  sf_nonneg x -> sf_nonneg (SF64div x (S754_finite false m e)).
Proof.
  destruct x as [sx|sx| |sx mx ex]; cbn -[SFdiv_core_binary]; trivial;
    intros; subst; trivial.
  destruct (SFdiv_core_binary _ _ _ _ _ _) as [[mz ez] lz].
  apply sf_signed_nonneg, binary_round_aux_signed.
Qed.

Lemma SF64add_nonneg (m : positive) (e : Z) (y : spec_float) :
  sf_nonneg y -> sf_nonneg (SF64add (S754_finite false m e) y).
Proof.
  destruct y as [sy|sy| |sy my ey]; cbn -[shl_align binary_round]; trivial;
    intros; subst; trivial.
  apply sf_signed_nonneg, binary_round_signed.
Qed.

Lemma leb_zero_nonneg (a : float) :
  (0 <=? a)%float = true -> sf_nonneg (Prim2SF a).
Proof.
  rewrite leb_spec. change (Prim2SF 0) with (S754_zero false).
  destruct (Prim2SF a) as [s|s| |s m e]; cbn; trivial; now destruct s.
Qed.

Lemma SFltb_SFleb (x y : spec_float) : SFltb x y = true -> SFleb x y = true.
Proof.
  unfold SFltb, SFleb. destruct (SFcompare x y) as [[]|]; congruence.
Qed.

(** A float that is not negative and is below something is not a NaN:
    it is at least 0. *)
Lemma nonneg_leb_zero (a b : float) :
  sf_nonneg (Prim2SF a) -> (a <? b)%float = true -> (0 <=? a)%float = true.
Proof.
  rewrite leb_spec, ltb_spec. change (Prim2SF 0) with (S754_zero false).
  destruct (Prim2SF a) as [s|s| |s m e]; cbn; trivial; try discriminate;
    intros ->; reflexivity.
Qed.

Lemma py_min_one_nonneg (q : float) :
  sf_nonneg (Prim2SF q) -> sf_nonneg (Prim2SF (py_min 1 q)).
Proof.
  intros H. unfold py_min. destruct (q <? 1)%float; [exact H|reflexivity].
Qed.

Lemma py_min_one_bounds (x : float) :
  sf_nonneg (Prim2SF x) ->
  (0 <=? py_min 1 x)%float = true /\ (py_min 1 x <=? 1)%float = true.
Proof.
  intros H. unfold py_min. destruct (x <? 1)%float eqn:E.
  - split; [eapply nonneg_leb_zero; eassumption|].
    rewrite leb_spec. apply SFltb_SFleb. now rewrite <- ltb_spec.
  - split; reflexivity.
Qed.

Lemma base_rating_nonneg (cname : string) : sf_nonneg (Prim2SF (base_rating cname)).
Proof.
  unfold base_rating.
  repeat match goal with |- context [String.eqb ?a ?b] => destruct (String.eqb a b) end;
    reflexivity.
Qed.

(** The table of the code and the table of the design document agree. *)
Lemma threat_ratings_base_rating (cname : string) :
  dict_get (lookup cname threat_ratings) 0.5%float = base_rating cname.
Proof.
  unfold base_rating, threat_ratings. cbn [lookup].
  repeat match goal with |- context [String.eqb ?a ?b] => destruct (String.eqb a b) end;
    reflexivity.
Qed.

Lemma threat_value_nonneg (base w h : float) :
  sf_nonneg (Prim2SF base) ->
  (0 <=? w)%float = true -> (0 <=? h)%float = true ->
  sf_nonneg (Prim2SF (base * (1 + py_min 1 (w * h / 10000)))%float).
Proof.
  intros Hb Hw Hh.
  rewrite mul_spec. apply SF64mul_nonneg; [exact Hb|].
  rewrite add_spec.
  change (Prim2SF 1) with (S754_finite false 4503599627370496 (-52)).
  apply SF64add_nonneg, py_min_one_nonneg.
  rewrite div_spec.
  change (Prim2SF 10000) with (S754_finite false 5497558138880000 (-39)).
  apply SF64div_nonneg.
  rewrite mul_spec. apply SF64mul_nonneg; now apply leb_zero_nonneg.
Qed.

(** Two positive floats with one exponent order as their mantissas do:
    what is below the smaller is not above the larger. *)
Lemma SFltb_below_not_above (x : spec_float) (m1 m2 : positive) (e : Z) :
  (m1 < m2)%positive ->
  SFltb x (S754_finite false m1 e) = true ->
  SFltb (S754_finite false m2 e) x = false.
Proof.
  intros Hm. unfold SFltb.
  destruct x as [s|s| |s m ex]; cbn [SFcompare].
  - reflexivity.
  - destruct s; [reflexivity|discriminate].
  - discriminate.
  - destruct s; [reflexivity|].
    rewrite (Z.compare_antisym ex e).
    destruct (ex ?= e)%Z; cbn [CompOpp]; try discriminate; [|reflexivity].
    change (Pos.compare_cont Eq m m1) with (Pos.compare m m1).
    change (Pos.compare_cont Eq m2 m) with (Pos.compare m2 m).
    destruct (Pos.compare_spec m m1); try discriminate.
    intros _.
    destruct (Pos.compare_spec m2 m); try reflexivity; lia.
Qed.

(** Below 0.7 is not above 0.8. *)
Lemma below_07_not_above_08 (x : float) :
  (x <? 0.7)%float = true -> (0.8 <? x)%float = false.
Proof.
  rewrite !ltb_spec.
  change (Prim2SF 0.7) with (S754_finite false 6305039478318694 (-53)).
  change (Prim2SF 0.8) with (S754_finite false 7205759403792794 (-53)).
  apply SFltb_below_not_above. vm_compute. reflexivity.
Qed.

(** ** Numbers *)

Lemma float_cmp_Z_mono (f : float) (k1 k2 : Z) :
  (k1 <= k2)%Z -> float_cmp_Z f k2 = Some Gt -> float_cmp_Z f k1 = Some Gt.
Proof.
  intros Hk. unfold float_cmp_Z.
  destruct (Prim2SF f) as [s|s| |s m e]; trivial.
  - destruct k2; cbn; try discriminate.
    destruct k1; cbn; try lia. reflexivity.
  - intros H. injection H as H. f_equal.
    destruct (0 <=? e)%Z.
    + apply Z.compare_gt_iff in H. apply Z.compare_gt_iff. lia.
    + apply Z.compare_gt_iff in H. apply Z.compare_gt_iff.
      assert (0 <= 2 ^ (- e))%Z by (apply Z.pow_nonneg; lia).
      assert (k1 * 2 ^ (- e) <= k2 * 2 ^ (- e))%Z
        by (apply Z.mul_le_mono_nonneg_r; assumption).
      lia.
Qed.

(** Above [k2] is not below a smaller [k1]. *)
Lemma num_gt_not_lt (x : number) (k1 k2 : Z) :
  (k1 <= k2)%Z -> num_gt x k2 = true -> num_lt x k1 = false.
Proof.
  intros Hk. unfold num_gt, num_lt.
  destruct (num_cmp x k2) as [[]|] eqn:E2; try discriminate. intros _.
  assert (E1 : num_cmp x k1 = Some Gt).
  { destruct x as [z|f]; cbn [num_cmp] in *.
    - injection E2 as E2. apply Z.compare_gt_iff in E2.
      f_equal. apply Z.compare_gt_iff. lia.
    - eapply float_cmp_Z_mono; eassumption. }
  now rewrite E1.
Qed.

Lemma num_ge_not_lt (x : number) (k : Z) : num_ge x k = true -> num_lt x k = false.
Proof.
  unfold num_ge, num_lt. destruct (num_cmp x k) as [[]|]; congruence.
Qed.

(** ** Lists *)

Lemma filter_subseq {A : Type} (f : A -> bool) (l : list A) : subseq (filter f l) l.
Proof.
  induction l as [|x l IH]; cbn [filter]; [constructor|].
  destruct (f x); now constructor.
Qed.

Lemma str_in_In (x : string) (xs : list string) : str_in x xs = true <-> In x xs.
Proof.
  induction xs as [|y ys IH]; cbn [str_in In]; [split; [discriminate|tauto]|].
  destruct (String.eqb_spec x y) as [->|Hne].
  - split; auto.
  - rewrite IH. split; [auto|]. intros [E|H]; [congruence|exact H].
Qed.

(** ** The choice of a resource *)

Lemma first_of_class_Some (ty : string) (rs : list Detection) (r : Detection) :
  first_of_class ty rs = Some r ->
  exists before after,
    rs = before ++ r :: after /\ class_name r = ty /\
    forall d, In d before -> class_name d <> ty.
Proof.
  induction rs as [|x rs IH]; cbn [first_of_class]; [discriminate|].
  destruct (String.eqb_spec (class_name x) ty) as [E|Hne].
  - intros [= ->]. exists [], rs. repeat split; [exact E|]. intros d [].
  - intros H. destruct (IH H) as (before & after & -> & Hty & Hbefore).
    exists (x :: before), after. repeat split; [exact Hty|].
    intros d [<-|Hd]; [exact Hne|now apply Hbefore].
Qed.

Lemma first_of_class_None (ty : string) (rs : list Detection) :
  first_of_class ty rs = None -> forall d, In d rs -> class_name d <> ty.
Proof.
  induction rs as [|x rs IH]; cbn [first_of_class]; [intros _ d []|].
  destruct (String.eqb_spec (class_name x) ty) as [E|Hne]; [discriminate|].
  intros H d [<-|Hd]; [exact Hne|now apply IH].
Qed.

Lemma first_by_priority_None (order : list string) (rs : list Detection) :
  first_by_priority order rs = None ->
  forall d, In d rs -> ~ In (class_name d) order.
Proof.
  induction order as [|ty order IH]; cbn [first_by_priority]; [intros _ d _ []|].
  destruct (first_of_class ty rs) as [r|] eqn:E; [discriminate|].
  intros H d Hd [Hty|Hin].
  - now apply (first_of_class_None _ _ E d Hd).
  - now apply (IH H d Hd).
Qed.

Lemma first_by_priority_Some (order : list string) (rs : list Detection)
    (r : Detection) :
  first_by_priority order rs = Some r ->
  exists higher ty lower before after,
    order = higher ++ ty :: lower /\
    rs = before ++ r :: after /\
    class_name r = ty /\
    (forall d, In d before -> class_name d <> ty) /\
    (forall d, In d rs -> ~ In (class_name d) higher).
Proof.
  induction order as [|ty order IH]; cbn [first_by_priority]; [discriminate|].
  destruct (first_of_class ty rs) as [r0|] eqn:E.
  - intros [= ->].
    destruct (first_of_class_Some _ _ _ E) as (before & after & Hrs & Hty & Hb).
    exists [], ty, order, before, after. repeat split; try assumption.
    intros d _ [].
  - intros H.
    destruct (IH H) as (higher & ty' & lower & before & after & -> & Hrs & Hty & Hb & Hh).
    exists (ty :: higher), ty', lower, before, after. repeat split; try assumption.
    intros d Hd [Hd'|Hin].
    + now apply (first_of_class_None _ _ E d Hd).
    + now apply (Hh d Hd).
Qed.

Section Engine.

Variables Config Item : Type.

Abbreviation Engine := (DecisionEngine Config Item).

(** [_select_best_resource] picks, among resources that are not empty,
    the one the class order picks. *)
Lemma select_best_resource_is_best (self : Engine) :
  nearby_resources self <> [] ->
  exists best,
    _select_best_resource self = Some best /\
    is_best priority_order (nearby_resources self) best.
Proof.
  unfold _select_best_resource. intros Hne.
  destruct (nearby_resources self) as [|first rest] eqn:Hrs; [congruence|].
  destruct (first_by_priority priority_order (first :: rest)) as [r|] eqn:E.
  - exists r. split; [reflexivity|]. left. now apply first_by_priority_Some.
  - exists first. split; [reflexivity|]. right. split.
    + now apply first_by_priority_None.
    + now exists rest.
Qed.

(** C1.  [make_decision] goes through its rules in order and the first
    that applies decides: health below 20 gives heal, Critical, whatever
    else holds; otherwise a threat gives, for the first one listed, flee,
    Critical, when health is below 50 and combat, High, when it is not;
    otherwise hunger below 30 gives find_food, High; otherwise resources
    give gather_resource, Medium, for the resource the class order ore,
    stone, tree, hemp, crate picks (the first resource when none has one
    of those classes); otherwise fewer than 5 items in the inventory give
    explore, Low, find_resources; otherwise explore, Minimal,
    general_exploration. *)
Theorem make_decision_spec (self : Engine) :
  (num_lt (health self) 20 = true ->
   make_decision self =
   mkDecision "heal" CRITICAL [("health", VNumber (health self))])
  /\ (num_lt (health self) 20 = false ->
      (forall threat rest, nearby_threats self = threat :: rest ->
         (num_lt (health self) 50 = true ->
          make_decision self =
          mkDecision "flee" CRITICAL [("threat", VDetection threat)])
         /\ (num_lt (health self) 50 = false ->
             make_decision self =
             mkDecision "combat" HIGH [("threat", VDetection threat)]))
      /\ (nearby_threats self = [] ->
          (num_lt (hunger self) 30 = true ->
           make_decision self =
           mkDecision "find_food" HIGH [("hunger", VNumber (hunger self))])
          /\ (num_lt (hunger self) 30 = false ->
              (nearby_resources self <> [] ->
               exists best,
                 is_best ["ore"; "stone"; "tree"; "hemp"; "crate"]
                         (nearby_resources self) best /\
                 make_decision self =
                 mkDecision "gather_resource" MEDIUM [("resource", VDetection best)])
              /\ (nearby_resources self = [] ->
                  ((Z.of_nat (List.length (inventory self)) < 5)%Z ->
                   make_decision self =
                   mkDecision "explore" LOW [("goal", VString "find_resources")])
                  /\ ((5 <= Z.of_nat (List.length (inventory self)))%Z ->
                      make_decision self =
                      mkDecision "explore" MINIMAL
                        [("goal", VString "general_exploration")]))))).
Proof.
  unfold make_decision. split; [now intros ->|].
  intros ->. split.
  - intros threat rest ->. split; now intros ->.
  - intros ->. split; [now intros ->|].
    intros ->. split.
    + intros Hne.
      destruct (select_best_resource_is_best self Hne) as (best & Hsel & Hbest).
      exists best. split; [exact Hbest|].
      destruct (nearby_resources self); [congruence|].
      now rewrite Hsel.
    + intros ->. split; intros H.
      * destruct (Z.ltb_spec (Z.of_nat (List.length (inventory self))) 5);
          [reflexivity|lia].
      * destruct (Z.ltb_spec (Z.of_nat (List.length (inventory self))) 5);
          [lia|reflexivity].
Qed.

(** C5.  [update_game_state] sorts the detections of the payload into
    threats (player, bear, wolf, scientist) and resources (tree, stone,
    ore, hemp, crate), in the order received, and leaves out the others;
    the two lists are new each call, whatever they held before; health
    and hunger change only when the payload has them; inventory, state
    and configuration stay as they are. *)
Theorem update_game_state_spec (self : Engine) (vision_data : VisionData) :
  let detections :=
    match vd_detections vision_data with Some ds => ds | None => [] end in
  let self' := update_game_state self vision_data in
  nearby_threats self' =
    filter (fun d => str_in (class_name d) ["player"; "bear"; "wolf"; "scientist"])
           detections
  /\ nearby_resources self' =
     filter (fun d => str_in (class_name d) ["tree"; "stone"; "ore"; "hemp"; "crate"])
            detections
  /\ (forall d, In d (nearby_threats self') <->
                In d detections /\
                In (class_name d) ["player"; "bear"; "wolf"; "scientist"])
  /\ (forall d, In d (nearby_resources self') <->
                In d detections /\
                In (class_name d) ["tree"; "stone"; "ore"; "hemp"; "crate"])
  /\ subseq (nearby_threats self') detections
  /\ subseq (nearby_resources self') detections
  /\ (forall other : Engine,
        nearby_threats (update_game_state other vision_data) = nearby_threats self' /\
        nearby_resources (update_game_state other vision_data) = nearby_resources self')
  /\ health self' =
     match vd_health vision_data with Some h => h | None => health self end
  /\ hunger self' =
     match vd_hunger vision_data with Some h => h | None => hunger self end
  /\ inventory self' = inventory self
  /\ current_state self' = current_state self
  /\ config self' = config self.
Proof.
  cbn zeta. unfold update_game_state, dict_get, threat_classes, resource_classes.
  cbn [nearby_threats nearby_resources health hunger inventory current_state config].
  assert (Hin : forall (classes : list string) (l : list Detection) (d : Detection),
             In d (filter (fun d => str_in (class_name d) classes) l) <->
             In d l /\ In (class_name d) classes).
  { intros classes l d. now rewrite filter_In, str_in_In. }
  repeat match goal with |- _ /\ _ => split end;
    try reflexivity; try apply filter_subseq; try (intros d; apply Hin).
  intros other. split; reflexivity.
Qed.

(** C7.  [evaluate_threat_level] is [min(1, base * (1 + distance_factor))]
    with [base] from the table (0.5 for a class that is not in it),
    [distance_factor = min(1, size / 10000)] and [size] the width times
    the height of the box; for a box whose width and height are not
    negative the result is between 0 and 1. *)
Theorem evaluate_threat_level_spec (self : Engine) (cid : Z) (cname : string)
    (conf x1 y1 x2 y2 : float) (more : list float) (ctr : float * float) :
  let threat := mkDetection cid cname conf (x1 :: y1 :: x2 :: y2 :: more) ctr in
  evaluate_threat_level self threat = Some (threat_level_formula cname x1 y1 x2 y2)
  /\ ((0 <=? x2 - x1)%float = true -> (0 <=? y2 - y1)%float = true ->
      (0 <=? threat_level_formula cname x1 y1 x2 y2)%float = true /\
      (threat_level_formula cname x1 y1 x2 y2 <=? 1)%float = true).
Proof.
  cbn zeta. split.
  - unfold evaluate_threat_level, threat_level_formula.
    cbn [bbox class_name nth_error]. now rewrite threat_ratings_base_rating.
  - intros Hw Hh. unfold threat_level_formula.
    apply py_min_one_bounds, threat_value_nonneg; try assumption.
    apply base_rating_nonneg.
Qed.

(** C8.  [should_engage_combat], for a threat whose level is [tl]: false
    when health is below 40; false when [tl] is above 0.8 and health is
    below 70; true exactly when health is above 60 and [tl] is below 0.7;
    false in every other case. *)
Theorem should_engage_combat_spec (self : Engine) (threat : Detection) (tl : float) :
  evaluate_threat_level self threat = Some tl ->
  (num_lt (health self) 40 = true -> should_engage_combat self threat = Some false)
  /\ ((0.8 <? tl)%float = true -> num_lt (health self) 70 = true ->
      should_engage_combat self threat = Some false)
  /\ (should_engage_combat self threat = Some true <->
      num_gt (health self) 60 = true /\ (tl <? 0.7)%float = true)
  /\ (~ (num_gt (health self) 60 = true /\ (tl <? 0.7)%float = true) ->
      should_engage_combat self threat = Some false).
Proof.
  intros Htl. unfold should_engage_combat. rewrite Htl.
  split; [now intros ->|].
  split; [intros -> ->; now destruct (num_lt (health self) 40)|].
  split; [split|].
  - destruct (num_lt (health self) 40); [discriminate|].
    destruct ((0.8 <? tl)%float && num_lt (health self) 70); [discriminate|].
    intros [= H]. now apply andb_true_iff in H.
  - intros [Hgt Hlt].
    rewrite (num_gt_not_lt _ 40 60 ltac:(lia) Hgt).
    rewrite (below_07_not_above_08 _ Hlt). cbn [andb].
    now rewrite Hgt, Hlt.
  - intros Hnot.
    destruct (num_lt (health self) 40); [reflexivity|].
    destruct ((0.8 <? tl)%float && num_lt (health self) 70); [reflexivity|].
    destruct (num_gt (health self) 60) eqn:Hgt; [|reflexivity].
    destruct (tl <? 0.7)%float eqn:Hlt; [|reflexivity].
    exfalso. now apply Hnot.
Qed.

(** No call changes the inventory. *)
Lemma do_call_inventory (self : Engine) (c : Call) :
  inventory (fst (do_call self c)) = inventory self.
Proof. destruct c; reflexivity. Qed.

Lemma run_inventory (self : Engine) (calls : list Call) :
  inventory (run self calls) = inventory self.
Proof.
  unfold run. revert self.
  induction calls as [|c calls IH]; intros self; [reflexivity|].
  cbn [fold_left]. rewrite IH. apply do_call_inventory.
Qed.

(** C10.  No method of the engine changes the inventory, which starts
    empty: after any calls it is empty, so shorter than 5; then with
    health at least 20, no threat, hunger at least 30 and no resource
    [make_decision] gives explore, Low, find_resources, and it never
    gives the Minimal decision. *)
Theorem inventory_stays_empty (cfg : Config) (calls : list Call) :
  let self := run (DecisionEngine_init Item cfg) calls in
  (forall (e : Engine) (c : Call), inventory (fst (do_call e c)) = inventory e)
  /\ inventory self = []
  /\ (Z.of_nat (List.length (inventory self)) < 5)%Z
  /\ (num_ge (health self) 20 = true -> nearby_threats self = [] ->
      num_ge (hunger self) 30 = true -> nearby_resources self = [] ->
      make_decision self =
      mkDecision "explore" LOW [("goal", VString "find_resources")])
  /\ priority (make_decision self) <> MINIMAL.
Proof.
  cbn zeta.
  assert (Hinv : inventory (run (DecisionEngine_init Item cfg) calls) = [])
    by apply run_inventory.
  split; [apply do_call_inventory|].
  split; [exact Hinv|].
  split; [rewrite Hinv; cbn; lia|].
  split.
  - intros Hh Ht Hu Hr. unfold make_decision.
    rewrite (num_ge_not_lt _ _ Hh), Ht, (num_ge_not_lt _ _ Hu), Hr, Hinv.
    reflexivity.
  - unfold make_decision. rewrite Hinv.
    destruct (num_lt (health _) 20); [discriminate|].
    destruct (nearby_threats _).
    + destruct (num_lt (hunger _) 30); [discriminate|].
      destruct (nearby_resources _); discriminate.
    + destruct (num_lt (health _) 50); discriminate.
Qed.

End Engine.

Import Samples.

(** Health 15 with a wolf near: heal; health 40: flee; health 80:
    combat. *)
Lemma make_decision_spec_witness :
  make_decision (engine 15 [wolf] []) =
    mkDecision "heal" CRITICAL [("health", VNumber (PyInt 15))]
  /\ make_decision (engine 40 [wolf] []) =
     mkDecision "flee" CRITICAL [("threat", VDetection wolf)]
  /\ make_decision (engine 80 [wolf] []) =
     mkDecision "combat" HIGH [("threat", VDetection wolf)].
Proof.
  split; [|split].
  - apply (proj1 (make_decision_spec unit unit (engine 15 [wolf] []))).
    reflexivity.
  - destruct (make_decision_spec unit unit (engine 40 [wolf] [])) as [_ H].
    destruct (H eq_refl) as [Hthreat _].
    apply (proj1 (Hthreat wolf [] eq_refl)). reflexivity.
  - destruct (make_decision_spec unit unit (engine 80 [wolf] [])) as [_ H].
    destruct (H eq_refl) as [Hthreat _].
    apply (proj2 (Hthreat wolf [] eq_refl)). reflexivity.
Defined.

(** With a tree and an ore near, in that order, the ore is gathered. *)
Example make_decision_tree_ore :
  make_decision (engine 80 [] [tree; ore]) =
  mkDecision "gather_resource" MEDIUM [("resource", VDetection ore)].
Proof. reflexivity. Qed.

(** The engine reads a float health as it reads an int. *)
Example make_decision_float_health :
  make_decision (mkDecisionEngine tt IDLE (PyFloat 19.5) (PyInt 100)
                   ([] : list unit) [wolf] []) =
  mkDecision "heal" CRITICAL [("health", VNumber (PyFloat 19.5))].
Proof. reflexivity. Qed.

(** A wolf in a box of 50 by 100: 0.7 * 1.5 is above 1, so the level
    is 1; a box of fewer than four numbers raises. *)
Example evaluate_threat_level_wolf :
  evaluate_threat_level (engine 80 [wolf] []) wolf = Some 1%float
  /\ evaluate_threat_level (engine 80 [] [])
       (mkDetection 0 "wolf" 0.9 [100; 100; 150]%float (125, 150)%float) = None.
Proof. split; reflexivity. Qed.

(** The wolf is left of the middle of the screen: flee right. *)
Example calculate_flee_direction_wolf :
  calculate_flee_direction (engine 80 [wolf] []) wolf = "right".
Proof. reflexivity. Qed.

(** A wolf in a box of 50 by 100. *)
Lemma evaluate_threat_level_spec_witness :
  (0 <=? threat_level_formula "wolf" 100 100 150 200)%float = true /\
  (threat_level_formula "wolf" 100 100 150 200 <=? 1)%float = true.
Proof.
  apply (proj2 (evaluate_threat_level_spec unit unit (engine 80 [wolf] [])
                  0 "wolf" 0.9%float 100%float 100%float 150%float 200%float
                  [] (125%float, 150%float)));
    reflexivity.
Defined.

(** Health 100 and a boar in a small box: engage. *)
Lemma should_engage_combat_spec_witness :
  should_engage_combat (engine 100 [boar] []) boar = Some true.
Proof.
  destruct (should_engage_combat_spec unit unit (engine 100 [boar] []) boar
              (threat_level_formula "boar" 0 0 10 10) eq_refl)
    as (_ & _ & H & _).
  apply H. split; reflexivity.
Defined.

(** After a frame with only a boar in sight and a change of state, the
    engine explores for resources. *)
Lemma inventory_stays_empty_witness :
  make_decision
    (run (DecisionEngine_init unit tt)
         [call_update_game_state (mkVisionData (Some [boar]) None None);
          call_set_state EXPLORING; call_make_decision]) =
  mkDecision "explore" LOW [("goal", VString "find_resources")].
Proof.
  destruct (inventory_stays_empty unit unit tt
              [call_update_game_state (mkVisionData (Some [boar]) None None);
               call_set_state EXPLORING; call_make_decision])
    as (_ & _ & _ & H & _).
  apply H; reflexivity.
Defined.

End DEProps.

(** * Further properties of the behavior tree *)

Module BTExtra.
Import BT BTNotions.

Section Loops.

Context {W C : Type}.
Variable tick_child : C -> W -> NodeStatus * C * W.

(** A relation that every child's tick keeps holds between the children
    before and after each of the three loops. *)
Variable R : C -> C -> Prop.
Hypothesis R_refl : forall c, R c c.

Lemma Forall2_refl_R (cs : list C) : Forall2 R cs cs.
Proof. induction cs; constructor; auto. Qed.

Lemma sequence_loop_Forall2 (cs : list C) (skip pos : nat) (w : W) :
  Forall (fun c => forall w0, R c (snd (fst (tick_child c w0)))) cs ->
  Forall2 R cs (snd (fst (sequence_loop tick_child cs skip pos w))).
Proof.
  intros H. revert skip pos w.
  induction H as [|c rest Hc _ IH]; intros skip pos w; [constructor|].
  cbn [sequence_loop]. destruct skip as [|k].
  - specialize (Hc w). destruct (tick_child c w) as [[s c'] w1].
    cbn [fst snd] in Hc.
    destruct s; cbn [fst snd]; try (constructor; [exact Hc|apply Forall2_refl_R]).
    specialize (IH 0 (S pos) w1).
    destruct (sequence_loop tick_child rest 0 (S pos) w1) as [[[s2 i] rest'] w2].
    constructor; assumption.
  - specialize (IH k (S pos) w).
    destruct (sequence_loop tick_child rest k (S pos) w) as [[[s2 i] rest'] w2].
    constructor; [apply R_refl|assumption].
Qed.

Lemma selector_loop_Forall2 (cs : list C) (skip pos : nat) (w : W) :
  Forall (fun c => forall w0, R c (snd (fst (tick_child c w0)))) cs ->
  Forall2 R cs (snd (fst (selector_loop tick_child cs skip pos w))).
Proof.
  intros H. revert skip pos w.
  induction H as [|c rest Hc _ IH]; intros skip pos w; [constructor|].
  cbn [selector_loop]. destruct skip as [|k].
  - specialize (Hc w). destruct (tick_child c w) as [[s c'] w1].
    cbn [fst snd] in Hc.
    destruct s; cbn [fst snd]; try (constructor; [exact Hc|apply Forall2_refl_R]).
    specialize (IH 0 (S pos) w1).
    destruct (selector_loop tick_child rest 0 (S pos) w1) as [[[s2 i] rest'] w2].
    constructor; assumption.
  - specialize (IH k (S pos) w).
    destruct (selector_loop tick_child rest k (S pos) w) as [[[s2 i] rest'] w2].
    constructor; [apply R_refl|assumption].
Qed.

Lemma parallel_loop_Forall2 (cs : list C) (t : Tally) (w : W) :
  Forall (fun c => forall w0, R c (snd (fst (tick_child c w0)))) cs ->
  Forall2 R cs (snd (fst (parallel_loop tick_child cs t w))).
Proof.
  intros H. revert t w.
  induction H as [|c rest Hc _ IH]; intros t w; [constructor|].
  cbn [parallel_loop].
  specialize (Hc w). destruct (tick_child c w) as [[s c'] w1].
  specialize (IH (tally_add t s) w1).
  destruct (parallel_loop tick_child rest (tally_add t s) w1) as [[t' rest'] w2].
  constructor; assumption.
Qed.

End Loops.

(** ** Counting statuses *)

Lemma count_status_cons (s a : NodeStatus) (sts : list NodeStatus) :
  count_status s (a :: sts) =
  ((if NodeStatus_eqb s a then 1 else 0) + count_status s sts)%Z.
Proof.
  unfold count_status. cbn [filter].
  destruct (NodeStatus_eqb s a); cbn [List.length]; lia.
Qed.

Lemma count_status_nonneg (s : NodeStatus) (sts : list NodeStatus) :
  (0 <= count_status s sts)%Z.
Proof. unfold count_status. lia. Qed.

(** Every status is counted once. *)
Lemma count_status_total (sts : list NodeStatus) :
  (count_status SUCCESS sts + count_status FAILURE sts + count_status RUNNING sts
   = Z.of_nat (List.length sts))%Z.
Proof.
  induction sts as [|a sts IH]; [reflexivity|].
  rewrite !count_status_cons. cbn [List.length].
  destruct a; cbn [NodeStatus_eqb]; lia.
Qed.

Lemma count_status_all (s : NodeStatus) (sts : list NodeStatus) :
  count_status s sts = Z.of_nat (List.length sts) <-> Forall (fun a => a = s) sts.
Proof.
  induction sts as [|a sts IH]; [split; [constructor|reflexivity]|].
  rewrite count_status_cons. cbn [List.length].
  pose proof (count_status_nonneg s sts) as Hn.
  assert (Hle : (count_status s sts <= Z.of_nat (List.length sts))%Z).
  { unfold count_status. apply inj_le, filter_length_le. }
  split.
  - intros H. destruct (NodeStatus_eqb s a) eqn:E; [|lia].
    constructor; [now destruct s, a|]. apply IH. lia.
  - intros H. inversion H as [|? ? Ha Hs]; subst.
    apply IH in Hs. destruct s; cbn [NodeStatus_eqb]; lia.
Qed.

Lemma count_status_some (s : NodeStatus) (sts : list NodeStatus) :
  (1 <= count_status s sts)%Z <-> In s sts.
Proof.
  induction sts as [|a sts IH]; [cbn; split; [lia|tauto]|].
  rewrite count_status_cons. cbn [In].
  pose proof (count_status_nonneg s sts) as Hn.
  destruct (NodeStatus_eqb s a) eqn:E.
  - split; [|lia]. intros _. left. now destruct s, a.
  - rewrite Z.add_0_l, IH. split; [tauto|].
    intros [->|H]; [now destruct s|exact H].
Qed.

Section LoopStatus.

Context {W C : Type}.
Variable tick_child : C -> W -> NodeStatus * C * W.

(** The status of the Sequence loop is the first status other than
    Success that the children from the cursor on yield. *)
Lemma sequence_loop_status (cs : list C) (skip pos : nat) (w : W) :
  fst (fst (fst (sequence_loop tick_child cs skip pos w))) =
  first_status_not SUCCESS (fst (fst (tick_all tick_child (skipn skip cs) w))).
Proof.
  revert skip pos w.
  induction cs as [|c rest IH]; intros skip pos w; [now destruct skip|].
  destruct skip as [|k]; cbn [sequence_loop skipn tick_all].
  - destruct (tick_child c w) as [[s c'] w1].
    specialize (IH 0 (S pos) w1). cbn [skipn] in IH.
    destruct (tick_all tick_child rest w1) as [[sts rest1] w2].
    destruct (sequence_loop tick_child rest 0 (S pos) w1) as [[[s2 i] rest'] w3].
    destruct s; cbn [fst] in *; try reflexivity. exact IH.
  - specialize (IH k (S pos) w).
    now destruct (sequence_loop tick_child rest k (S pos) w) as [[[s2 i] rest'] w3].
Qed.

Lemma selector_loop_status (cs : list C) (skip pos : nat) (w : W) :
  fst (fst (fst (selector_loop tick_child cs skip pos w))) =
  first_status_not FAILURE (fst (fst (tick_all tick_child (skipn skip cs) w))).
Proof.
  revert skip pos w.
  induction cs as [|c rest IH]; intros skip pos w; [now destruct skip|].
  destruct skip as [|k]; cbn [selector_loop skipn tick_all].
  - destruct (tick_child c w) as [[s c'] w1].
    specialize (IH 0 (S pos) w1). cbn [skipn] in IH.
    destruct (tick_all tick_child rest w1) as [[sts rest1] w2].
    destruct (selector_loop tick_child rest 0 (S pos) w1) as [[[s2 i] rest'] w3].
    destruct s; cbn [fst] in *; try reflexivity. exact IH.
  - specialize (IH k (S pos) w).
    now destruct (selector_loop tick_child rest k (S pos) w) as [[[s2 i] rest'] w3].
Qed.

(** Where the loops leave the cursor: at 0 unless a child was Running,
    and then on that child. *)
Lemma sequence_loop_cursor (cs : list C) (skip pos : nat) (w : W) :
  let '(s, i, cs', w') := sequence_loop tick_child cs skip pos w in
  match s with
  | RUNNING =>
      exists c0 c w0 w1,
        In c0 cs /\ tick_child c0 w0 = (RUNNING, c, w1) /\
        pos <= i /\ nth_error cs' (i - pos) = Some c
  | _ => i = 0
  end.
Proof.
  revert skip pos w.
  induction cs as [|c rest IH]; intros skip pos w; [reflexivity|].
  cbn [sequence_loop]. destruct skip as [|k].
  - destruct (tick_child c w) as [[s c'] w1] eqn:E.
    destruct s; try reflexivity.
    + specialize (IH 0 (S pos) w1).
      destruct (sequence_loop tick_child rest 0 (S pos) w1) as [[[s2 i] rest'] w2].
      destruct s2; try exact IH.
      destruct IH as (c0 & c1 & w0 & w3 & Hin & Ht & Hle & Hn).
      exists c0, c1, w0, w3. repeat split; [now right|exact Ht|lia|].
      replace (i - pos) with (S (i - S pos)) by lia. exact Hn.
    + exists c, c', w, w1. repeat split; [now left|exact E|lia|].
      now rewrite Nat.sub_diag.
  - specialize (IH k (S pos) w).
    destruct (sequence_loop tick_child rest k (S pos) w) as [[[s2 i] rest'] w2].
    destruct s2; try exact IH.
    destruct IH as (c0 & c1 & w0 & w3 & Hin & Ht & Hle & Hn).
    exists c0, c1, w0, w3. repeat split; [now right|exact Ht|lia|].
    replace (i - pos) with (S (i - S pos)) by lia. exact Hn.
Qed.

Lemma selector_loop_cursor (cs : list C) (skip pos : nat) (w : W) :
  let '(s, i, cs', w') := selector_loop tick_child cs skip pos w in
  match s with
  | RUNNING =>
      exists c0 c w0 w1,
        In c0 cs /\ tick_child c0 w0 = (RUNNING, c, w1) /\
        pos <= i /\ nth_error cs' (i - pos) = Some c
  | _ => i = 0
  end.
Proof.
  revert skip pos w.
  induction cs as [|c rest IH]; intros skip pos w; [reflexivity|].
  cbn [selector_loop]. destruct skip as [|k].
  - destruct (tick_child c w) as [[s c'] w1] eqn:E.
    destruct s; try reflexivity.
    + specialize (IH 0 (S pos) w1).
      destruct (selector_loop tick_child rest 0 (S pos) w1) as [[[s2 i] rest'] w2].
      destruct s2; try exact IH.
      destruct IH as (c0 & c1 & w0 & w3 & Hin & Ht & Hle & Hn).
      exists c0, c1, w0, w3. repeat split; [now right|exact Ht|lia|].
      replace (i - pos) with (S (i - S pos)) by lia. exact Hn.
    + exists c, c', w, w1. repeat split; [now left|exact E|lia|].
      now rewrite Nat.sub_diag.
  - specialize (IH k (S pos) w).
    destruct (selector_loop tick_child rest k (S pos) w) as [[[s2 i] rest'] w2].
    destruct s2; try exact IH.
    destruct IH as (c0 & c1 & w0 & w3 & Hin & Ht & Hle & Hn).
    exists c0, c1, w0, w3. repeat split; [now right|exact Ht|lia|].
    replace (i - pos) with (S (i - S pos)) by lia. exact Hn.
Qed.

(** A status that [tick_all] yields is the status of one child's tick. *)
Lemma tick_all_In (cs : list C) (w : W) (s : NodeStatus) :
  In s (fst (fst (tick_all tick_child cs w))) ->
  exists c0 c w0 w1,
    In c0 cs /\ In c (snd (fst (tick_all tick_child cs w))) /\
    tick_child c0 w0 = (s, c, w1).
Proof.
  revert w. induction cs as [|c rest IH]; intros w; [intros []|].
  cbn [tick_all].
  destruct (tick_child c w) as [[s0 c'] w1] eqn:E.
  specialize (IH w1).
  destruct (tick_all tick_child rest w1) as [[sts rest'] w2].
  cbn [fst snd] in *. intros [->|Hin].
  - exists c, c', w, w1. repeat split; [now left|now left|exact E].
  - destruct (IH Hin) as (c0 & c1 & w0 & w3 & H0 & H1 & Ht).
    exists c0, c1, w0, w3. repeat split; [now right|now right|exact Ht].
Qed.

End LoopStatus.

Section Ticks.

Variables Ctx W : Type.

Abbreviation Node := (BehaviorNode Ctx W).

Lemma Forall2_map_eq {A B : Type} (f : A -> B) (l l' : list A) :
  Forall2 (fun a a' => f a' = f a) l l' -> map f l' = map f l.
Proof. induction 1; cbn; congruence. Qed.

(** [tick] stores the status it returns. *)
Lemma tick_status_stored (n : Node) (ctx : Ctx) (w : W) :
  node_status (node_of (tick n ctx w)) = status_of (tick n ctx w).
Proof.
  unfold node_of, status_of. destruct n; cbn [tick].
  - now destruct (action ctx w).
  - now destruct (condition ctx w).
  - now destruct (sequence_loop _ _ _ _ _) as [[[s i] cs'] w'].
  - now destruct (selector_loop _ _ _ _ _) as [[[s i] cs'] w'].
  - now destruct (parallel_loop _ _ _ _) as [[t cs'] w'].
Qed.

Lemma tick_reset (n : Node) (ctx : Ctx) (w : W) :
  reset (node_of (tick n ctx w)) = reset n.
Proof.
  revert ctx w.
  induction n as [name st a|name st c|name st cs i IH|name st cs i IH|name st cs t IH]
    using BehaviorNode_nested_ind; intros ctx w; unfold node_of; cbn [tick].
  - now destruct (a ctx w).
  - now destruct (c ctx w).
  - pose proof (sequence_loop_Forall2 (fun c => tick c ctx)
                  (fun c c' => reset c' = reset c) (fun _ => eq_refl) cs i 0 w) as H.
    destruct (sequence_loop _ _ _ _ _) as [[[s j] cs'] w'].
    cbn [fst snd reset] in *. f_equal. apply Forall2_map_eq, H.
    eapply Forall_impl; [|exact IH]. intros c Hc w0. apply Hc.
  - pose proof (selector_loop_Forall2 (fun c => tick c ctx)
                  (fun c c' => reset c' = reset c) (fun _ => eq_refl) cs i 0 w) as H.
    destruct (selector_loop _ _ _ _ _) as [[[s j] cs'] w'].
    cbn [fst snd reset] in *. f_equal. apply Forall2_map_eq, H.
    eapply Forall_impl; [|exact IH]. intros c Hc w0. apply Hc.
  - pose proof (parallel_loop_Forall2 (fun c => tick c ctx)
                  (fun c c' => reset c' = reset c) cs tally_zero w) as H.
    destruct (parallel_loop _ _ _ _) as [[t' cs'] w'].
    cbn [fst snd reset] in *. f_equal. apply Forall2_map_eq, H.
    eapply Forall_impl; [|exact IH]. intros c Hc w0. apply Hc.
Qed.

Lemma reset_idempotent (n : Node) : reset (reset n) = reset n.
Proof.
  induction n as [name st a|name st c|name st cs i IH|name st cs i IH|name st cs t IH]
    using BehaviorNode_nested_ind; cbn [reset]; try reflexivity; f_equal;
    rewrite map_map; apply map_ext_Forall; exact IH.
Qed.

(** [reset] leaves a tree as it is exactly when every node of it is in
    its initial state. *)
Lemma reset_fixed_iff (n : Node) :
  reset n = n <-> Forall (fun m => is_reset m = true) (subnodes n).
Proof.
  split.
  - intros H. rewrite <- H. apply BTProps.subnodes_reset_all.
  - induction n as [name st a|name st c|name st cs i IH|name st cs i IH|name st cs t IH]
      using BehaviorNode_nested_ind; cbn [subnodes reset]; intros H;
      inversion H as [|? ? Hroot Hrest]; subst;
      unfold is_reset in Hroot; cbn [node_status node_cursor] in Hroot;
      apply andb_true_iff in Hroot as [Hs Hc];
      try (destruct st; try discriminate; reflexivity).
    all: destruct st; try discriminate.
    all: try (apply Nat.eqb_eq in Hc; subst i).
    all: f_equal.
    all: clear H; try clear Hs; try clear Hc;
      induction IH as [|c rest Hfix _ IHrest]; cbn [map flat_map] in *;
      [reflexivity|].
    all: apply Forall_app in Hrest as [H1 H2]; f_equal; auto.
Qed.

(** X1.  A tick changes nothing of a tree but statuses and cursors: the
    node stores the status it returns, and resetting the tree after the
    tick gives what resetting it before would have given; the nodes, their
    names and their order are as before. *)
Theorem tick_changes_status_and_cursor_only (n : Node) (ctx : Ctx) (w : W) :
  node_status (node_of (tick n ctx w)) = status_of (tick n ctx w)
  /\ reset (node_of (tick n ctx w)) = reset n
  /\ map node_name (subnodes (node_of (tick n ctx w))) = map node_name (subnodes n).
Proof.
  split; [apply tick_status_stored|].
  split; [apply tick_reset|].
  rewrite <- (BTProps.subnodes_reset_names _ _ (node_of (tick n ctx w))).
  rewrite tick_reset. apply BTProps.subnodes_reset_names.
Qed.

Lemma tick_many_reset (n : Node) (ctxs : list Ctx) (w : W) :
  reset (snd (fst (tick_many n ctxs w))) = reset n.
Proof.
  revert n w. induction ctxs as [|ctx rest IH]; intros n w; [reflexivity|].
  cbn [tick_many].
  pose proof (tick_reset n ctx w) as H. unfold node_of in H.
  destruct (tick n ctx w) as [[s n1] w1].
  specialize (IH n1 w1).
  destruct (tick_many n1 rest w1) as [[sts n2] w2].
  cbn [fst snd] in *. congruence.
Qed.

(** X2.  [reset] is idempotent, it leaves a tree as it is exactly when
    every node is in its initial state (status Failure, cursor 0), and
    after any number of ticks it gives the tree that resetting before
    them would have given: a tree in its initial state comes back. *)
Theorem reset_undoes_ticks (n : Node) (ctxs : list Ctx) (w : W) :
  reset (reset n) = reset n
  /\ (reset n = n <-> Forall (fun m => is_reset m = true) (subnodes n))
  /\ reset (snd (fst (tick_many n ctxs w))) = reset n
  /\ (Forall (fun m => is_reset m = true) (subnodes n) ->
      reset (snd (fst (tick_many n ctxs w))) = n).
Proof.
  split; [apply reset_idempotent|].
  split; [apply reset_fixed_iff|].
  split; [apply tick_many_reset|].
  intros H. rewrite tick_many_reset. now apply reset_fixed_iff.
Qed.

Lemma Forall_flat_map_subnodes (P : Node -> Prop) (cs : list Node) :
  Forall P (flat_map subnodes cs) <-> Forall (fun c => Forall P (subnodes c)) cs.
Proof.
  induction cs as [|c rest IH]; cbn [flat_map].
  - split; constructor.
  - rewrite Forall_app, IH. split.
    + intros [H1 H2]. now constructor.
    + intros H. inversion H; subst. now split.
Qed.

Lemma Forall2_Forall_transfer (P : Node -> Prop) (l l' : list Node) :
  Forall2 (fun c c' => P c -> P c') l l' -> Forall P l -> Forall P l'.
Proof.
  induction 1 as [|c c' l l' Hc _ IH]; intros H; [constructor|].
  inversion H; subst. constructor; auto.
Qed.

(** After a tick the cursor of a Sequence or Selector is at 0 unless the
    node returned Running, and then it is on a child whose status is
    Running. *)
Lemma tick_root_cursor (n : Node) (ctx : Ctx) (w : W) (i : nat) :
  node_cursor (node_of (tick n ctx w)) = Some i ->
  match status_of (tick n ctx w) with
  | RUNNING =>
      exists c, nth_error (node_children (node_of (tick n ctx w))) i = Some c /\
                node_status c = RUNNING
  | _ => i = 0
  end.
Proof.
  unfold node_of, status_of. destruct n; cbn [tick].
  - destruct (action ctx w); discriminate.
  - destruct (condition ctx w); discriminate.
  - pose proof (sequence_loop_cursor (fun c => tick c ctx) children
                  current_child_index 0 w) as H.
    destruct (sequence_loop _ _ _ _ _) as [[[s j] cs'] w'].
    cbn [fst snd node_cursor node_children]. intros [= <-].
    destruct s; try exact H.
    destruct H as (c0 & c & w0 & w1 & _ & Ht & _ & Hn).
    rewrite Nat.sub_0_r in Hn. exists c. split; [exact Hn|].
    pose proof (tick_status_stored c0 ctx w0) as Hs.
    unfold node_of, status_of in Hs. now rewrite Ht in Hs.
  - pose proof (selector_loop_cursor (fun c => tick c ctx) children
                  current_child_index 0 w) as H.
    destruct (selector_loop _ _ _ _ _) as [[[s j] cs'] w'].
    cbn [fst snd node_cursor node_children]. intros [= <-].
    destruct s; try exact H.
    destruct H as (c0 & c & w0 & w1 & _ & Ht & _ & Hn).
    rewrite Nat.sub_0_r in Hn. exists c. split; [exact Hn|].
    pose proof (tick_status_stored c0 ctx w0) as Hs.
    unfold node_of, status_of in Hs. now rewrite Ht in Hs.
  - destruct (parallel_loop _ _ _ _) as [[t cs'] w']. discriminate.
Qed.

Lemma tick_root_cursor_in_range (n : Node) (ctx : Ctx) (w : W) :
  cursor_in_range (node_of (tick n ctx w)).
Proof.
  unfold cursor_in_range.
  destruct (node_cursor (node_of (tick n ctx w))) as [i|] eqn:E; [|exact I].
  pose proof (tick_root_cursor n ctx w i E) as H.
  destruct (status_of (tick n ctx w)); try (now left).
  destruct H as (c & Hn & _). right.
  apply nth_error_Some. congruence.
Qed.

Lemma tick_cursors_in_range (n : Node) (ctx : Ctx) (w : W) :
  Forall cursor_in_range (subnodes n) ->
  Forall cursor_in_range (subnodes (node_of (tick n ctx w))).
Proof.
  revert ctx w.
  induction n as [name st a|name st c|name st cs i IH|name st cs i IH|name st cs t IH]
    using BehaviorNode_nested_ind; intros ctx w Hin.
  - unfold node_of. cbn [tick]. destruct (a ctx w).
    cbn [fst snd subnodes]. constructor; [exact I|constructor].
  - unfold node_of. cbn [tick]. destruct (c ctx w).
    cbn [fst snd subnodes]. constructor; [exact I|constructor].
  - pose proof (tick_root_cursor_in_range (SequenceNode name st cs i) ctx w) as Hroot.
    pose proof (sequence_loop_Forall2 (fun c => tick c ctx)
                  (fun c c' => Forall cursor_in_range (subnodes c) ->
                               Forall cursor_in_range (subnodes c'))
                  (fun _ H => H) cs i 0 w) as H.
    revert Hroot H. unfold node_of. cbn [tick].
    destruct (sequence_loop _ _ _ _ _) as [[[s j] cs'] w'].
    cbn [fst snd subnodes]. intros Hroot H.
    constructor; [exact Hroot|].
    inversion Hin as [|? ? _ Hcs]; subst.
    apply Forall_flat_map_subnodes. apply Forall_flat_map_subnodes in Hcs.
    eapply Forall2_Forall_transfer; [|exact Hcs]. apply H.
    eapply Forall_impl; [|exact IH]. intros c Hc w0. apply Hc.
  - pose proof (tick_root_cursor_in_range (SelectorNode name st cs i) ctx w) as Hroot.
    pose proof (selector_loop_Forall2 (fun c => tick c ctx)
                  (fun c c' => Forall cursor_in_range (subnodes c) ->
                               Forall cursor_in_range (subnodes c'))
                  (fun _ H => H) cs i 0 w) as H.
    revert Hroot H. unfold node_of. cbn [tick].
    destruct (selector_loop _ _ _ _ _) as [[[s j] cs'] w'].
    cbn [fst snd subnodes]. intros Hroot H.
    constructor; [exact Hroot|].
    inversion Hin as [|? ? _ Hcs]; subst.
    apply Forall_flat_map_subnodes. apply Forall_flat_map_subnodes in Hcs.
    eapply Forall2_Forall_transfer; [|exact Hcs]. apply H.
    eapply Forall_impl; [|exact IH]. intros c Hc w0. apply Hc.
  - pose proof (parallel_loop_Forall2 (fun c => tick c ctx)
                  (fun c c' => Forall cursor_in_range (subnodes c) ->
                               Forall cursor_in_range (subnodes c'))
                  cs tally_zero w) as H.
    revert H. unfold node_of. cbn [tick].
    destruct (parallel_loop _ _ _ _) as [[t' cs'] w'].
    cbn [fst snd subnodes]. intros H.
    constructor; [exact I|].
    inversion Hin as [|? ? _ Hcs]; subst.
    apply Forall_flat_map_subnodes. apply Forall_flat_map_subnodes in Hcs.
    eapply Forall2_Forall_transfer; [|exact Hcs]. apply H.
    eapply Forall_impl; [|exact IH]. intros c Hc w0. apply Hc.
Qed.

(** X3.  The cursor invariant.  After a tick the cursor of the ticked
    Sequence or Selector is 0 unless it returned Running, and then it is
    the index of a child whose status is Running; so it is 0 or the index
    of a child, whatever it was before.  A tree all of whose cursors are
    0 or the index of a child stays so under [tick], and is so after
    [reset]. *)
Theorem cursor_stays_in_range (n : Node) (ctx : Ctx) (w : W) :
  (forall i, node_cursor (node_of (tick n ctx w)) = Some i ->
     match status_of (tick n ctx w) with
     | RUNNING =>
         exists c, nth_error (node_children (node_of (tick n ctx w))) i = Some c /\
                   node_status c = RUNNING
     | _ => i = 0
     end)
  /\ cursor_in_range (node_of (tick n ctx w))
  /\ (Forall cursor_in_range (subnodes n) ->
      Forall cursor_in_range (subnodes (node_of (tick n ctx w))))
  /\ Forall cursor_in_range (subnodes (reset n)).
Proof.
  split; [apply tick_root_cursor|].
  split; [apply tick_root_cursor_in_range|].
  split; [apply tick_cursors_in_range|].
  eapply Forall_impl; [|apply BTProps.subnodes_reset_all].
  intros m Hm. unfold is_reset in Hm. apply andb_true_iff in Hm as [_ Hc].
  unfold cursor_in_range. destruct (node_cursor m); [|exact I].
  left. now apply Nat.eqb_eq.
Qed.

Lemma first_status_not_eq (s0 : NodeStatus) (sts : list NodeStatus) :
  first_status_not s0 sts = s0 <-> Forall (fun s => s = s0) sts.
Proof.
  unfold first_status_not.
  induction sts as [|a sts IH]; cbn [find]; [split; [constructor|reflexivity]|].
  destruct (NodeStatus_eqb a s0) eqn:E; cbn [negb].
  - assert (a = s0) by now destruct a, s0. subst a.
    rewrite IH. split; [now constructor|]. intros H. now inversion H.
  - split.
    + intros ->. now destruct s0.
    + intros H. inversion H; subst. now destruct s0.
Qed.

(** X4.  The status of a Sequence tick is the first status other than
    Success that its children from the cursor on yield, ticked in order
    (Success when there is none): it is Success exactly when all of them
    yield Success.  The status of a Selector tick is the first status
    other than Failure: it is Failure exactly when all of them yield
    Failure. *)
Theorem composite_status_is_first_deciding_child (name : string) (st : NodeStatus)
    (cs : list Node) (i : nat) (ctx : Ctx) (w : W) :
  let sts := fst (fst (tick_each (skipn i cs) ctx w)) in
  status_of (tick (SequenceNode name st cs i) ctx w) = first_status_not SUCCESS sts
  /\ status_of (tick (SelectorNode name st cs i) ctx w) = first_status_not FAILURE sts
  /\ (status_of (tick (SequenceNode name st cs i) ctx w) = SUCCESS <->
      Forall (fun s => s = SUCCESS) sts)
  /\ (status_of (tick (SelectorNode name st cs i) ctx w) = FAILURE <->
      Forall (fun s => s = FAILURE) sts).
Proof.
  cbn zeta.
  assert (Hseq : status_of (tick (SequenceNode name st cs i) ctx w) =
                 first_status_not SUCCESS (fst (fst (tick_each (skipn i cs) ctx w)))).
  { unfold status_of, tick_each. cbn [tick].
    rewrite <- (sequence_loop_status (fun c => tick c ctx) cs i 0 w).
    now destruct (sequence_loop _ _ _ _ _) as [[[s j] cs'] w']. }
  assert (Hsel : status_of (tick (SelectorNode name st cs i) ctx w) =
                 first_status_not FAILURE (fst (fst (tick_each (skipn i cs) ctx w)))).
  { unfold status_of, tick_each. cbn [tick].
    rewrite <- (selector_loop_status (fun c => tick c ctx) cs i 0 w).
    now destruct (selector_loop _ _ _ _ _) as [[[s j] cs'] w']. }
  split; [exact Hseq|]. split; [exact Hsel|].
  rewrite Hseq, Hsel. split; apply first_status_not_eq.
Qed.

(** The status of a Parallel tick from the counts of the statuses its
    children yield. *)
Lemma parallel_status (name : string) (st : NodeStatus) (cs : list Node)
    (threshold : Z) (ctx : Ctx) (w : W) :
  let sts := fst (fst (tick_each cs ctx w)) in
  List.length sts = List.length cs /\
  status_of (tick (ParallelNode name st cs threshold) ctx w) =
  if (count_status SUCCESS sts >=? threshold)%Z then SUCCESS
  else if (Z.of_nat (List.length sts) - count_status FAILURE sts <? threshold)%Z
       then FAILURE
       else RUNNING.
Proof.
  cbn zeta. unfold tick_each, status_of.
  pose proof (BTProps.tick_all_length (fun c => tick c ctx) cs w) as [Hlen _].
  split; [exact Hlen|].
  cbn [tick]. rewrite BTProps.parallel_loop_tick_all.
  destruct (tick_all (fun c => tick c ctx) cs w) as [[sts cs'] w'].
  cbn [fst snd] in *.
  pose proof (BTProps.tally_add_counts tally_zero sts) as (Hs & Hf & _).
  cbn zeta in Hs, Hf. unfold parallel_verdict.
  rewrite Hs, Hf, Hlen. cbn [tally_zero success_count failure_count].
  now rewrite !Z.add_0_l.
Qed.

(** A Parallel returns Running only when a child did. *)
Lemma parallel_running_child (name : string) (st : NodeStatus) (cs : list Node)
    (threshold : Z) (ctx : Ctx) (w : W) :
  status_of (tick (ParallelNode name st cs threshold) ctx w) = RUNNING ->
  In RUNNING (fst (fst (tick_each cs ctx w))).
Proof.
  intros Hrun.
  pose proof (parallel_status name st cs threshold ctx w) as [Hlen Hst].
  cbn zeta in Hst. rewrite Hrun in Hst.
  pose proof (count_status_total (fst (fst (tick_each cs ctx w)))) as Htot.
  apply count_status_some.
  destruct (Z.geb_spec (count_status SUCCESS (fst (fst (tick_each cs ctx w))))
                       threshold); [discriminate|].
  destruct (Z.ltb_spec (Z.of_nat (List.length (fst (fst (tick_each cs ctx w))))
                        - count_status FAILURE (fst (fst (tick_each cs ctx w))))
                       threshold); [discriminate|].
  lia.
Qed.

Lemma is_action_reset (n : Node) :
  map is_action (subnodes (reset n)) = map is_action (subnodes n).
Proof.
  induction n as [name st a|name st c|name st cs i IH|name st cs i IH|name st cs t IH]
    using BehaviorNode_nested_ind;
    cbn [reset subnodes map is_action]; try reflexivity; f_equal.
  all: induction IH as [|c rest Hc _ IHrest]; cbn [map flat_map];
    [reflexivity | rewrite !map_app; congruence].
Qed.

Lemma is_action_tick (n : Node) (ctx : Ctx) (w : W) :
  map is_action (subnodes (node_of (tick n ctx w))) = map is_action (subnodes n).
Proof.
  rewrite <- (is_action_reset (node_of (tick n ctx w))), tick_reset.
  apply is_action_reset.
Qed.

Lemma running_has_running_action (n : Node) (ctx : Ctx) (w : W) :
  status_of (tick n ctx w) = RUNNING ->
  Exists (fun m => is_action m = true /\ node_status m = RUNNING)
         (subnodes (node_of (tick n ctx w))).
Proof.
  revert ctx w.
  induction n as [name st a|name st c|name st cs i IH|name st cs i IH|name st cs t IH]
    using BehaviorNode_nested_ind; intros ctx w.
  - unfold status_of, node_of. cbn [tick]. destruct (a ctx w) as [s w'].
    cbn [fst snd subnodes]. intros ->. now constructor.
  - unfold status_of, node_of. cbn [tick]. destruct (c ctx w) as [[] w']; discriminate.
  - pose proof (sequence_loop_cursor (fun c => tick c ctx) cs i 0 w) as H.
    unfold status_of, node_of. cbn [tick].
    destruct (sequence_loop _ _ _ _ _) as [[[s j] cs'] w'].
    cbn [fst snd subnodes]. intros ->.
    destruct H as (c0 & c & w0 & w1 & Hin & Ht & _ & Hn).
    apply Exists_cons_tl. apply Exists_exists.
    rewrite Forall_forall in IH.
    pose proof (IH c0 Hin ctx w0) as Hc.
    unfold status_of, node_of in Hc. rewrite Ht in Hc. cbn [fst snd] in Hc.
    apply Exists_exists in Hc as (m & Hm & HQ); [|reflexivity].
    exists m. split; [|exact HQ].
    apply in_flat_map. exists c. split; [|exact Hm].
    eapply nth_error_In; exact Hn.
  - pose proof (selector_loop_cursor (fun c => tick c ctx) cs i 0 w) as H.
    unfold status_of, node_of. cbn [tick].
    destruct (selector_loop _ _ _ _ _) as [[[s j] cs'] w'].
    cbn [fst snd subnodes]. intros ->.
    destruct H as (c0 & c & w0 & w1 & Hin & Ht & _ & Hn).
    apply Exists_cons_tl. apply Exists_exists.
    rewrite Forall_forall in IH.
    pose proof (IH c0 Hin ctx w0) as Hc.
    unfold status_of, node_of in Hc. rewrite Ht in Hc. cbn [fst snd] in Hc.
    apply Exists_exists in Hc as (m & Hm & HQ); [|reflexivity].
    exists m. split; [|exact HQ].
    apply in_flat_map. exists c. split; [|exact Hm].
    eapply nth_error_In; exact Hn.
  - intros Hrun.
    pose proof (parallel_running_child name st cs t ctx w Hrun) as Hr.
    destruct (tick_all_In (fun c => tick c ctx) cs w RUNNING Hr)
      as (c0 & c & w0 & w1 & Hin & Hin' & Ht).
    rewrite Forall_forall in IH.
    pose proof (IH c0 Hin ctx w0) as Hc.
    unfold status_of, node_of in Hc. rewrite Ht in Hc. cbn [fst snd] in Hc.
    apply Exists_exists in Hc as (m & Hm & HQ); [|reflexivity].
    unfold node_of. cbn [tick]. rewrite BTProps.parallel_loop_tick_all.
    destruct (tick_all (fun c => tick c ctx) cs w) as [[sts cs'] w'].
    cbn [fst snd subnodes] in *.
    apply Exists_cons_tl. apply Exists_exists.
    exists m. split; [|exact HQ].
    apply in_flat_map. exists c. split; [exact Hin'|exact Hm].
Qed.

(** X5.  Running comes from an action: when a tick of any tree returns
    Running, some ActionNode of the tree has just returned Running (its
    status is Running after the tick); a tree without ActionNodes never
    returns Running. *)
Theorem running_comes_from_action (n : Node) (ctx : Ctx) (w : W) :
  (status_of (tick n ctx w) = RUNNING ->
   Exists (fun m => is_action m = true /\ node_status m = RUNNING)
          (subnodes (node_of (tick n ctx w))))
  /\ (Forall (fun m => is_action m = false) (subnodes n) ->
      status_of (tick n ctx w) <> RUNNING).
Proof.
  split; [apply running_has_running_action|].
  intros Hnone Hrun.
  apply running_has_running_action in Hrun.
  apply Exists_exists in Hrun as (m & Hm & Ha & _).
  assert (Hall : Forall (fun b => b = false)
                        (map is_action (subnodes (node_of (tick n ctx w))))).
  { rewrite is_action_tick. apply Forall_map. exact Hnone. }
  rewrite Forall_forall in Hall.
  specialize (Hall (is_action m) (in_map _ _ _ Hm)). congruence.
Qed.

(** X6.  The thresholds of a Parallel.  With a threshold of 0 or less it
    always succeeds; with a threshold above the number of children it
    always fails; it returns Running only when a child did.  With the
    threshold equal to the number of children (at least one) it succeeds
    exactly when all children succeed and fails exactly when one fails;
    with threshold 1 it succeeds exactly when one child succeeds and
    fails exactly when all fail. *)
Theorem parallel_thresholds (name : string) (st : NodeStatus) (cs : list Node)
    (threshold : Z) (ctx : Ctx) (w : W) :
  let sts := fst (fst (tick_each cs ctx w)) in
  let s := status_of (tick (ParallelNode name st cs threshold) ctx w) in
  ((threshold <= 0)%Z -> s = SUCCESS)
  /\ ((Z.of_nat (List.length cs) < threshold)%Z -> s = FAILURE)
  /\ (s = RUNNING -> In RUNNING sts)
  /\ (threshold = Z.of_nat (List.length cs) -> (0 < threshold)%Z ->
      (s = SUCCESS <-> Forall (fun a => a = SUCCESS) sts) /\
      (s = FAILURE <-> In FAILURE sts))
  /\ (threshold = 1%Z ->
      (s = SUCCESS <-> In SUCCESS sts) /\
      (s = FAILURE <-> Forall (fun a => a = FAILURE) sts)).
Proof.
  cbn zeta.
  pose proof (parallel_status name st cs threshold ctx w) as [Hlen Hst].
  cbn zeta in Hst. rewrite Hst. clear Hst.
  set (sts := fst (fst (tick_each cs ctx w))) in *.
  pose proof (count_status_total sts) as Htot.
  pose proof (count_status_nonneg SUCCESS sts) as HS.
  pose proof (count_status_nonneg FAILURE sts) as HF.
  pose proof (count_status_nonneg RUNNING sts) as HR.
  pose proof (count_status_all SUCCESS sts) as HallS.
  pose proof (count_status_all FAILURE sts) as HallF.
  pose proof (count_status_some SUCCESS sts) as HsomeS.
  pose proof (count_status_some FAILURE sts) as HsomeF.
  pose proof (count_status_some RUNNING sts) as HsomeR.
  rewrite <- Hlen.
  destruct (Z.geb_spec (count_status SUCCESS sts) threshold) as [Hge|Hlt];
    [|destruct (Z.ltb_spec (Z.of_nat (List.length sts) - count_status FAILURE sts)
                           threshold) as [Hrem|Hrem]].
  - repeat split; try reflexivity; try discriminate; intros.
    + lia.
    + apply HallS. lia.
    + exfalso. apply HsomeF in H1. lia.
    + apply HsomeS. lia.
    + exfalso. apply HallF in H0. lia.
  - repeat split; try reflexivity; try discriminate; intros.
    + lia.
    + exfalso. apply HallS in H1. lia.
    + apply HsomeF. lia.
    + exfalso. apply HsomeS in H0. lia.
    + apply HallF. lia.
  - repeat split; try reflexivity; try discriminate; intros.
    + lia.
    + lia.
    + apply HsomeR. lia.
    + exfalso. apply HallS in H1. lia.
    + exfalso. apply HsomeF in H1. lia.
    + exfalso. apply HsomeS in H0. lia.
    + exfalso. apply HallF in H0. lia.
Qed.

(** X7.  A composite with a single child is transparent: a Sequence, a
    Selector or a Parallel with the default threshold 1, built empty and
    given one child, returns at each tick what the child returns, with
    the cursor staying at 0. *)
Theorem single_child_composite (name : string) (c : Node) (ctx : Ctx) (w : W) :
  let '(s, c', w') := tick c ctx w in
  tick (add_child (SequenceNode_init name None) c) ctx w =
    (s, SequenceNode name s [c'] 0, w')
  /\ tick (add_child (SelectorNode_init name None) c) ctx w =
     (s, SelectorNode name s [c'] 0, w')
  /\ tick (add_child (ParallelNode_init name None None) c) ctx w =
     (s, ParallelNode name s [c'] 1, w')
  /\ forall st, tick (SequenceNode name st [c] 0) ctx w =
                (s, SequenceNode name s [c'] 0, w').
Proof.
  destruct (tick c ctx w) as [[s c'] w'] eqn:E.
  cbn [add_child SequenceNode_init SelectorNode_init ParallelNode_init
       children_or_empty app].
  repeat split; try intros st; cbn [tick sequence_loop selector_loop parallel_loop];
    rewrite E; now destruct s.
Qed.

End Ticks.

Section LoopAgree.

Context {W C D : Type}.
Variable tick_c : C -> W -> NodeStatus * C * W.
Variable tick_d : D -> W -> NodeStatus * D * W.

(** Two children tick alike: the same status and the same world. *)
Definition alike (c : C) (d : D) : Prop :=
  forall w, fst (fst (tick_c c w)) = fst (fst (tick_d d w)) /\
            snd (tick_c c w) = snd (tick_d d w).

(** Over children that tick alike the loops return the same status and
    cursor and leave the same world. *)
Lemma sequence_loop_alike (cs : list C) (ds : list D) (skip pos : nat) (w : W) :
  Forall2 alike cs ds ->
  let '(s1, i1, _, w1) := sequence_loop tick_c cs skip pos w in
  let '(s2, i2, _, w2) := sequence_loop tick_d ds skip pos w in
  s1 = s2 /\ i1 = i2 /\ w1 = w2.
Proof.
  intros H. revert skip pos w.
  induction H as [|c d cs ds Hcd _ IH]; intros skip pos w; [now cbn|].
  cbn [sequence_loop]. destruct skip as [|k].
  - destruct (Hcd w) as [Hs Hw].
    destruct (tick_c c w) as [[s c'] w1], (tick_d d w) as [[s' d'] w1'].
    cbn [fst snd] in *. subst s' w1'.
    destruct s; try now repeat split.
    specialize (IH 0 (S pos) w1).
    destruct (sequence_loop tick_c cs 0 (S pos) w1) as [[[? ?] ?] ?],
             (sequence_loop tick_d ds 0 (S pos) w1) as [[[? ?] ?] ?].
    exact IH.
  - specialize (IH k (S pos) w).
    destruct (sequence_loop tick_c cs k (S pos) w) as [[[? ?] ?] ?],
             (sequence_loop tick_d ds k (S pos) w) as [[[? ?] ?] ?].
    exact IH.
Qed.

Lemma selector_loop_alike (cs : list C) (ds : list D) (skip pos : nat) (w : W) :
  Forall2 alike cs ds ->
  let '(s1, i1, _, w1) := selector_loop tick_c cs skip pos w in
  let '(s2, i2, _, w2) := selector_loop tick_d ds skip pos w in
  s1 = s2 /\ i1 = i2 /\ w1 = w2.
Proof.
  intros H. revert skip pos w.
  induction H as [|c d cs ds Hcd _ IH]; intros skip pos w; [now cbn|].
  cbn [selector_loop]. destruct skip as [|k].
  - destruct (Hcd w) as [Hs Hw].
    destruct (tick_c c w) as [[s c'] w1], (tick_d d w) as [[s' d'] w1'].
    cbn [fst snd] in *. subst s' w1'.
    destruct s; try now repeat split.
    specialize (IH 0 (S pos) w1).
    destruct (selector_loop tick_c cs 0 (S pos) w1) as [[[? ?] ?] ?],
             (selector_loop tick_d ds 0 (S pos) w1) as [[[? ?] ?] ?].
    exact IH.
  - specialize (IH k (S pos) w).
    destruct (selector_loop tick_c cs k (S pos) w) as [[[? ?] ?] ?],
             (selector_loop tick_d ds k (S pos) w) as [[[? ?] ?] ?].
    exact IH.
Qed.

Lemma parallel_loop_alike (cs : list C) (ds : list D) (t : Tally) (w : W) :
  Forall2 alike cs ds ->
  let '(t1, _, w1) := parallel_loop tick_c cs t w in
  let '(t2, _, w2) := parallel_loop tick_d ds t w in
  t1 = t2 /\ w1 = w2.
Proof.
  intros H. revert t w.
  induction H as [|c d cs ds Hcd _ IH]; intros t w; [now cbn|].
  cbn [parallel_loop].
  destruct (Hcd w) as [Hs Hw].
  destruct (tick_c c w) as [[s c'] w1], (tick_d d w) as [[s' d'] w1'].
  cbn [fst snd] in *. subst s' w1'.
  specialize (IH (tally_add t s) w1).
  destruct (parallel_loop tick_c cs (tally_add t s) w1) as [[? ?] ?],
           (parallel_loop tick_d ds (tally_add t s) w1) as [[? ?] ?].
  exact IH.
Qed.

End LoopAgree.

Section Memory.

Variables Ctx W : Type.

Abbreviation TNode := (BehaviorNode Ctx W).

Lemma cursors_zero_children (P : TNode -> Prop) (n : TNode) :
  Forall P (subnodes n) -> Forall (fun c => Forall P (subnodes c)) (node_children n).
Proof.
  destruct n; cbn [subnodes node_children]; intros H; inversion H; subst;
    try constructor; now apply Forall_flat_map_subnodes.
Qed.

(** With every cursor at 0, a tick of the tree and a tick of the reset
    tree return the same status and leave the same world. *)
Lemma tick_reset_alike (n : TNode) (ctx : Ctx) :
  cursors_zero n ->
  alike (fun c => tick c ctx) (fun c => tick c ctx) n (reset n).
Proof.
  induction n as [name st a|name st c|name st cs i IH|name st cs i IH|name st cs t IH]
    using BehaviorNode_nested_ind; intros Hz w.
  - cbn [tick reset]. now destruct (a ctx w).
  - cbn [tick reset]. now destruct (c ctx w).
  - assert (i = 0) as ->.
    { inversion Hz as [|? ? [Hc|Hc] _]; cbn in Hc; congruence. }
    assert (H : Forall2 (alike (fun c => tick c ctx) (fun c => tick c ctx))
                        cs (map reset cs)).
    { apply (cursors_zero_children _ _) in Hz. cbn [node_children] in Hz.
      clear -IH Hz. induction IH as [|c rest Hc _ IHrest]; cbn [map]; [constructor|].
      inversion Hz; subst. constructor; auto. }
    pose proof (sequence_loop_alike _ _ _ _ 0 0 w H) as Hl.
    cbn [tick reset].
    destruct (sequence_loop _ cs 0 0 w) as [[[s1 i1] cs1] w1],
             (sequence_loop _ (map reset cs) 0 0 w) as [[[s2 i2] cs2] w2].
    cbn [fst snd]. tauto.
  - assert (i = 0) as ->.
    { inversion Hz as [|? ? [Hc|Hc] _]; cbn in Hc; congruence. }
    assert (H : Forall2 (alike (fun c => tick c ctx) (fun c => tick c ctx))
                        cs (map reset cs)).
    { apply (cursors_zero_children _ _) in Hz. cbn [node_children] in Hz.
      clear -IH Hz. induction IH as [|c rest Hc _ IHrest]; cbn [map]; [constructor|].
      inversion Hz; subst. constructor; auto. }
    pose proof (selector_loop_alike _ _ _ _ 0 0 w H) as Hl.
    cbn [tick reset].
    destruct (selector_loop _ cs 0 0 w) as [[[s1 i1] cs1] w1],
             (selector_loop _ (map reset cs) 0 0 w) as [[[s2 i2] cs2] w2].
    cbn [fst snd]. tauto.
  - assert (H : Forall2 (alike (fun c => tick c ctx) (fun c => tick c ctx))
                        cs (map reset cs)).
    { apply (cursors_zero_children _ _) in Hz. cbn [node_children] in Hz.
      clear -IH Hz. induction IH as [|c rest Hc _ IHrest]; cbn [map]; [constructor|].
      inversion Hz; subst. constructor; auto. }
    pose proof (parallel_loop_alike _ _ _ _ tally_zero w H) as Hl.
    cbn [tick reset]. rewrite length_map.
    destruct (parallel_loop _ cs tally_zero w) as [[t1 cs1] w1],
             (parallel_loop _ (map reset cs) tally_zero w) as [[t2 cs2] w2].
    cbn [fst snd]. destruct Hl as [-> ->]. tauto.
Qed.

(** X8.  [tick] never reads a stored status: for a tree whose cursors
    are all 0, a tick returns the status, and leaves the world, that a
    tick of the reset tree would. *)
Theorem tick_ignores_stored_status (n : TNode) (ctx : Ctx) (w : W) :
  cursors_zero n ->
  status_of (tick n ctx w) = status_of (tick (reset n) ctx w) /\
  world_of (tick n ctx w) = world_of (tick (reset n) ctx w).
Proof.
  intros Hz. exact (tick_reset_alike n ctx Hz w).
Qed.

End Memory.

Section NoRunning.

Variables Ctx W : Type.

Abbreviation RNode := (BehaviorNode Ctx W).

Lemma subnodes_reset (n : RNode) : subnodes (reset n) = map reset (subnodes n).
Proof.
  induction n as [name st a|name st c|name st cs i IH|name st cs i IH|name st cs t IH]
    using BehaviorNode_nested_ind; cbn [reset subnodes map]; try reflexivity; f_equal.
  all: induction IH as [|c rest Hc _ IHrest]; cbn [map flat_map];
    [reflexivity | rewrite map_app; congruence].
Qed.

Lemma never_running_reset (n : RNode) : never_running (reset n) <-> never_running n.
Proof.
  unfold never_running. rewrite subnodes_reset, Forall_map.
  split; apply Forall_impl; intros m; now destruct m.
Qed.

Lemma never_running_tick (n : RNode) (ctx : Ctx) (w : W) :
  never_running n -> never_running (node_of (tick n ctx w)).
Proof.
  intros H. apply never_running_reset. rewrite tick_reset.
  now apply never_running_reset.
Qed.

Lemma never_running_status (n : RNode) (ctx : Ctx) (w : W) :
  never_running n -> status_of (tick n ctx w) <> RUNNING.
Proof.
  revert ctx w.
  induction n as [name st a|name st c|name st cs i IH|name st cs i IH|name st cs t IH]
    using BehaviorNode_nested_ind; intros ctx w Hn.
  - inversion Hn as [|? ? Ha _]; subst. cbn in Ha. specialize (Ha ctx w).
    unfold status_of. cbn [tick]. now destruct (a ctx w).
  - unfold status_of. cbn [tick]. now destruct (c ctx w) as [[] ?].
  - apply (cursors_zero_children _ _ action_never_running) in Hn.
    cbn [node_children] in Hn. rewrite Forall_forall in IH, Hn.
    pose proof (sequence_loop_cursor (fun c => tick c ctx) cs i 0 w) as H.
    unfold status_of. cbn [tick].
    destruct (sequence_loop _ _ _ _ _) as [[[s j] cs'] w']. cbn [fst]. intros ->.
    destruct H as (c0 & c & w0 & w1 & Hin & Ht & _).
    apply (IH c0 Hin ctx w0 (Hn c0 Hin)). unfold status_of. now rewrite Ht.
  - apply (cursors_zero_children _ _ action_never_running) in Hn.
    cbn [node_children] in Hn. rewrite Forall_forall in IH, Hn.
    pose proof (selector_loop_cursor (fun c => tick c ctx) cs i 0 w) as H.
    unfold status_of. cbn [tick].
    destruct (selector_loop _ _ _ _ _) as [[[s j] cs'] w']. cbn [fst]. intros ->.
    destruct H as (c0 & c & w0 & w1 & Hin & Ht & _).
    apply (IH c0 Hin ctx w0 (Hn c0 Hin)). unfold status_of. now rewrite Ht.
  - apply (cursors_zero_children _ _ action_never_running) in Hn.
    cbn [node_children] in Hn. rewrite Forall_forall in IH, Hn.
    intros Hrun.
    pose proof (parallel_running_child _ _ name st cs t ctx w Hrun) as Hr.
    destruct (tick_all_In (fun c => tick c ctx) cs w RUNNING Hr)
      as (c0 & c & w0 & w1 & Hin & _ & Ht).
    apply (IH c0 Hin ctx w0 (Hn c0 Hin)). unfold status_of. now rewrite Ht.
Qed.

Lemma Forall2_transfer2 (P Q : RNode -> Prop) (l l' : list RNode) :
  Forall2 (fun c c' => P c -> Q c -> Q c') l l' ->
  Forall P l -> Forall Q l -> Forall Q l'.
Proof.
  induction 1 as [|c c' l l' Hc _ IH]; intros HP HQ; [constructor|].
  inversion HP; inversion HQ; subst. constructor; auto.
Qed.

Lemma never_running_cursors (n : RNode) (ctx : Ctx) (w : W) :
  never_running n -> cursors_zero n -> cursors_zero (node_of (tick n ctx w)).
Proof.
  revert ctx w.
  induction n as [name st a|name st c|name st cs i IH|name st cs i IH|name st cs t IH]
    using BehaviorNode_nested_ind; intros ctx w Hn Hz.
  - unfold node_of. cbn [tick]. destruct (a ctx w).
    constructor; [now left|constructor].
  - unfold node_of. cbn [tick]. destruct (c ctx w).
    constructor; [now left|constructor].
  - pose proof (never_running_status _ ctx w Hn) as Hs.
    pose proof (tick_root_cursor _ _ (SequenceNode name st cs i) ctx w) as Hroot.
    apply (cursors_zero_children _ _ action_never_running) in Hn.
    pose proof (cursors_zero_children _ _ _ _ Hz) as Hzc.
    cbn [node_children] in Hn, Hzc.
    pose proof (sequence_loop_Forall2 (fun c => tick c ctx)
                  (fun c c' => never_running c -> cursors_zero c -> cursors_zero c')
                  (fun _ _ H => H) cs i 0 w) as H.
    revert Hs Hroot H. unfold node_of, status_of. cbn [tick].
    destruct (sequence_loop _ _ _ _ _) as [[[s j] cs'] w'].
    cbn [fst snd node_cursor]. intros Hs Hroot H.
    constructor.
    + right. specialize (Hroot j eq_refl). cbn [node_cursor].
      destruct s; congruence.
    + apply Forall_flat_map_subnodes.
      assert (H2 : Forall2 (fun c c' => never_running c -> cursors_zero c -> cursors_zero c')
                           cs cs').
      { apply H. eapply Forall_impl; [|exact IH]. intros c Hc w0. apply Hc. }
      exact (Forall2_transfer2 _ _ _ _ H2 Hn Hzc).
  - pose proof (never_running_status _ ctx w Hn) as Hs.
    pose proof (tick_root_cursor _ _ (SelectorNode name st cs i) ctx w) as Hroot.
    apply (cursors_zero_children _ _ action_never_running) in Hn.
    pose proof (cursors_zero_children _ _ _ _ Hz) as Hzc.
    cbn [node_children] in Hn, Hzc.
    pose proof (selector_loop_Forall2 (fun c => tick c ctx)
                  (fun c c' => never_running c -> cursors_zero c -> cursors_zero c')
                  (fun _ _ H => H) cs i 0 w) as H.
    revert Hs Hroot H. unfold node_of, status_of. cbn [tick].
    destruct (selector_loop _ _ _ _ _) as [[[s j] cs'] w'].
    cbn [fst snd node_cursor]. intros Hs Hroot H.
    constructor.
    + right. specialize (Hroot j eq_refl). cbn [node_cursor].
      destruct s; congruence.
    + apply Forall_flat_map_subnodes.
      assert (H2 : Forall2 (fun c c' => never_running c -> cursors_zero c -> cursors_zero c')
                           cs cs').
      { apply H. eapply Forall_impl; [|exact IH]. intros c Hc w0. apply Hc. }
      exact (Forall2_transfer2 _ _ _ _ H2 Hn Hzc).
  - apply (cursors_zero_children _ _ action_never_running) in Hn.
    pose proof (cursors_zero_children _ _ _ _ Hz) as Hzc.
    cbn [node_children] in Hn, Hzc.
    pose proof (parallel_loop_Forall2 (fun c => tick c ctx)
                  (fun c c' => never_running c -> cursors_zero c -> cursors_zero c')
                  cs tally_zero w) as H.
    revert H. unfold node_of. cbn [tick].
    destruct (parallel_loop _ _ _ _) as [[t' cs'] w'].
    cbn [fst snd]. intros H.
    constructor; [now left|].
    apply Forall_flat_map_subnodes.
    assert (H2 : Forall2 (fun c c' => never_running c -> cursors_zero c -> cursors_zero c')
                         cs cs').
    { apply H. eapply Forall_impl; [|exact IH]. intros c Hc w0. apply Hc. }
    exact (Forall2_transfer2 _ _ _ _ H2 Hn Hzc).
Qed.

(** X9.  A tree whose actions never return Running has no memory: from a
    state with every cursor at 0, no tick ever returns Running, every
    cursor is still 0 after any number of ticks, and the next tick
    returns the status, and leaves the world, that a tick of the reset
    tree would. *)
Theorem no_running_no_memory (n : RNode) (ctxs : list Ctx) (w : W) (ctx : Ctx) :
  never_running n -> cursors_zero n ->
  let '(sts, t, w1) := tick_many n ctxs w in
  ~ In RUNNING sts
  /\ cursors_zero t
  /\ status_of (tick t ctx w1) = status_of (tick (reset n) ctx w1)
  /\ world_of (tick t ctx w1) = world_of (tick (reset n) ctx w1).
Proof.
  revert n w. induction ctxs as [|c0 rest IH]; intros n w Hn Hz.
  - cbn [tick_many]. split; [intros []|]. split; [exact Hz|].
    exact (tick_reset_alike _ _ n ctx Hz w).
  - cbn [tick_many].
    pose proof (never_running_status n c0 w Hn) as Hs.
    pose proof (never_running_tick n c0 w Hn) as Hn1.
    pose proof (never_running_cursors n c0 w Hn Hz) as Hz1.
    pose proof (tick_reset _ _ n c0 w) as Hr.
    unfold status_of, node_of in *.
    destruct (tick n c0 w) as [[s n1] w1]. cbn [fst snd] in *.
    specialize (IH n1 w1 Hn1 Hz1).
    destruct (tick_many n1 rest w1) as [[sts t] w2].
    destruct IH as (Hin & Hzt & Hst & Hw).
    split; [intros [E|E]; [congruence|now apply Hin]|].
    split; [exact Hzt|]. rewrite <- Hr. now split.
Qed.

End NoRunning.

Section Resume.

Context {W C : Type}.
Variable tick_child : C -> W -> NodeStatus * C * W.

(** The loops from cursor [skip] leave the first [skip] children alone
    and go through the others as a loop over those alone would. *)
Lemma sequence_loop_resume (cs : list C) (skip pos : nat) (w : W) :
  sequence_loop tick_child cs skip pos w =
  let '(s, j, cs', w') := sequence_loop tick_child (skipn skip cs) 0 0 w in
  (s, match s with RUNNING => pos + skip + j | _ => 0 end, firstn skip cs ++ cs', w').
Proof.
  revert skip pos w.
  induction cs as [|c rest IH]; intros skip pos w; [now destruct skip|].
  destruct skip as [|k]; cbn [skipn firstn app].
  - cbn [sequence_loop].
    destruct (tick_child c w) as [[s c'] w1].
    destruct s; try reflexivity.
    + rewrite (IH 0 (S pos) w1), (IH 0 1 w1). cbn [skipn firstn app].
      destruct (sequence_loop tick_child rest 0 0 w1) as [[[s2 j] rest'] w2].
      destruct s2; try reflexivity. do 2 f_equal. f_equal. lia.
    + do 2 f_equal. f_equal. lia.
  - cbn [sequence_loop]. rewrite (IH k (S pos) w).
    destruct (sequence_loop tick_child (skipn k rest) 0 0 w) as [[[s2 j] rest'] w2].
    destruct s2; try reflexivity. do 2 f_equal. f_equal. lia.
Qed.

Lemma selector_loop_resume (cs : list C) (skip pos : nat) (w : W) :
  selector_loop tick_child cs skip pos w =
  let '(s, j, cs', w') := selector_loop tick_child (skipn skip cs) 0 0 w in
  (s, match s with RUNNING => pos + skip + j | _ => 0 end, firstn skip cs ++ cs', w').
Proof.
  revert skip pos w.
  induction cs as [|c rest IH]; intros skip pos w; [now destruct skip|].
  destruct skip as [|k]; cbn [skipn firstn app].
  - cbn [selector_loop].
    destruct (tick_child c w) as [[s c'] w1].
    destruct s; try reflexivity.
    + rewrite (IH 0 (S pos) w1), (IH 0 1 w1). cbn [skipn firstn app].
      destruct (selector_loop tick_child rest 0 0 w1) as [[[s2 j] rest'] w2].
      destruct s2; try reflexivity. do 2 f_equal. f_equal. lia.
    + do 2 f_equal. f_equal. lia.
  - cbn [selector_loop]. rewrite (IH k (S pos) w).
    destruct (selector_loop tick_child (skipn k rest) 0 0 w) as [[[s2 j] rest'] w2].
    destruct s2; try reflexivity. do 2 f_equal. f_equal. lia.
Qed.

End Resume.

Section Resuming.

Variables Ctx W : Type.

(** X18.  Resuming.  A tick of a Sequence or Selector from cursor [i]
    ticks none of the first [i] children, so a guard among them is not
    evaluated again: it returns the status, and leaves the world, that a
    tick of a node holding only the remaining children would; the first
    [i] children are as before, the others as that tick leaves them, and
    the cursor is [i] further on when the status is Running and 0 when
    it is not. *)
Theorem resumed_tick_skips_earlier_children (name : string) (st : NodeStatus)
    (cs : list (BehaviorNode Ctx W)) (i : nat) (ctx : Ctx) (w : W) :
  (let '(s, n', w') := tick (SequenceNode name st (skipn i cs) 0) ctx w in
   tick (SequenceNode name st cs i) ctx w =
   (s,
    SequenceNode name s (firstn i cs ++ node_children n')
      (match s, node_cursor n' with RUNNING, Some j => i + j | _, _ => 0 end),
    w'))
  /\ (let '(s, n', w') := tick (SelectorNode name st (skipn i cs) 0) ctx w in
      tick (SelectorNode name st cs i) ctx w =
      (s,
       SelectorNode name s (firstn i cs ++ node_children n')
         (match s, node_cursor n' with RUNNING, Some j => i + j | _, _ => 0 end),
       w')).
Proof.
  split; cbn [tick].
  - rewrite (sequence_loop_resume (fun c => tick c ctx) cs i 0 w).
    rewrite (sequence_loop_resume (fun c => tick c ctx) (skipn i cs) 0 0 w).
    cbn [skipn firstn app].
    destruct (sequence_loop _ (skipn i cs) 0 0 w) as [[[s j] cs'] w'].
    cbn [node_children node_cursor]. destruct s; reflexivity.
  - rewrite (selector_loop_resume (fun c => tick c ctx) cs i 0 w).
    rewrite (selector_loop_resume (fun c => tick c ctx) (skipn i cs) 0 0 w).
    cbn [skipn firstn app].
    destruct (selector_loop _ (skipn i cs) 0 0 w) as [[[s j] cs'] w'].
    cbn [node_children node_cursor]. destruct s; reflexivity.
Qed.

End Resuming.

Import Samples MoreSamples.

(** A fresh Sequence ticked twice comes back by [reset]. *)
Lemma reset_undoes_ticks_witness :
  reset (snd (fst (tick_many waiting_sequence [tt; tt] 0))) = waiting_sequence.
Proof.
  destruct (reset_undoes_ticks unit nat waiting_sequence [tt; tt] 0) as (_ & _ & _ & H).
  apply H. repeat constructor.
Defined.

(** The parked Sequence has a Running action. *)
Lemma running_comes_from_action_witness :
  Exists (fun m => is_action m = true /\ node_status m = RUNNING)
         (subnodes (node_of (tick waiting_sequence tt 0))).
Proof.
  apply (proj1 (running_comes_from_action unit nat waiting_sequence tt 0)).
  reflexivity.
Defined.

(** Both children needed, one fails: the Parallel fails. *)
Lemma parallel_thresholds_witness :
  status_of (tick strict_parallel tt 0) = FAILURE.
Proof.
  destruct (parallel_thresholds unit nat "par" FAILURE
              [leaf "a" FAILURE (always SUCCESS); leaf "b" FAILURE (always FAILURE)]
              2 tt 0) as (_ & _ & _ & H & _).
  apply (H eq_refl ltac:(lia)). right. now left.
Defined.

(** The stale statuses of [stale_selector] do not matter. *)
Lemma tick_ignores_stored_status_witness :
  status_of (tick stale_selector tt 0) = status_of (tick (reset stale_selector) tt 0)
  /\ world_of (tick stale_selector tt 0) = world_of (tick (reset stale_selector) tt 0).
Proof.
  apply tick_ignores_stored_status.
  repeat constructor; (now left) || (now right).
Defined.

Lemma no_running_no_memory_witness :
  let '(sts, t, w1) := tick_many stale_selector [tt; tt] 0 in
  ~ In RUNNING sts
  /\ cursors_zero t
  /\ status_of (tick t tt w1) = status_of (tick (reset stale_selector) tt w1)
  /\ world_of (tick t tt w1) = world_of (tick (reset stale_selector) tt w1).
Proof.
  apply (no_running_no_memory unit nat stale_selector [tt; tt] 0 tt).
  - repeat constructor; intros ctx w; discriminate.
  - repeat constructor; (now left) || (now right).
Defined.

End BTExtra.

(** * Further properties of the decision engine *)

Module DEExtra.
Import DE DENotions.

Lemma hd_error_filter {A : Type} (f : A -> bool) (l : list A) :
  hd_error (filter f l) = find f l.
Proof.
  induction l as [|x l IH]; cbn [filter find]; [reflexivity|].
  now destruct (f x).
Qed.

Lemma first_of_class_filter (g : Detection -> bool) (ty : string)
    (l : list Detection) :
  (forall d, class_name d = ty -> g d = true) ->
  first_of_class ty (filter g l) = first_of_class ty l.
Proof.
  intros Hg. induction l as [|x l IH]; cbn [filter first_of_class]; [reflexivity|].
  destruct (String.eqb_spec (class_name x) ty) as [E|Hne].
  - rewrite (Hg x E). cbn [first_of_class].
    now destruct (String.eqb_spec (class_name x) ty).
  - destruct (g x); [|exact IH]. cbn [first_of_class].
    now destruct (String.eqb_spec (class_name x) ty).
Qed.

Lemma first_by_priority_filter (g : Detection -> bool) (order : list string)
    (l : list Detection) :
  (forall ty d, In ty order -> class_name d = ty -> g d = true) ->
  first_by_priority order (filter g l) = first_by_priority order l.
Proof.
  induction order as [|ty order IH]; intros Hg; [reflexivity|].
  cbn [first_by_priority].
  rewrite first_of_class_filter by (intros d; apply Hg; now left).
  rewrite IH by (intros ty' d Hin; apply Hg; now right).
  reflexivity.
Qed.

(** The classes of the priority order are resource classes and the
    other way round. *)
Lemma priority_order_resource_classes (ty : string) :
  In ty priority_order <-> In ty resource_classes.
Proof.
  unfold priority_order, resource_classes. cbn [In]. tauto.
Qed.

Section Engine.

Variables Config Item : Type.

Abbreviation Engine := (DecisionEngine Config Item).

Lemma make_decision_update (self : Engine) (vision_data : VisionData) :
  let self' := update_game_state self vision_data in
  let detections :=
    match vd_detections vision_data with Some ds => ds | None => [] end in
  make_decision self' =
    decide_from (health self') (hunger self') (List.length (inventory self))
                detections
  /\ (nearby_resources self' <> [] ->
      exists best,
        _select_best_resource self' = Some best /\
        first_by_priority priority_order detections = Some best /\
        In (class_name best) priority_order).
Proof.
  cbn zeta.
  set (ds := match vd_detections vision_data with Some ds => ds | None => [] end).
  assert (Hres : nearby_resources (update_game_state self vision_data) =
                 filter (fun d => str_in (class_name d) resource_classes) ds)
    by reflexivity.
  assert (Hthr : nearby_threats (update_game_state self vision_data) =
                 filter (fun d => str_in (class_name d) threat_classes) ds)
    by reflexivity.
  assert (Hfilter : first_by_priority priority_order
                      (filter (fun d => str_in (class_name d) resource_classes) ds) =
                    first_by_priority priority_order ds).
  { apply first_by_priority_filter. intros ty d Hin <-.
    apply DEProps.str_in_In. now apply priority_order_resource_classes. }
  assert (Hsome : forall r rest,
             filter (fun d => str_in (class_name d) resource_classes) ds = r :: rest ->
             exists best, first_by_priority priority_order ds = Some best /\
                          In (class_name best) priority_order).
  { intros r rest E. rewrite <- Hfilter, E.
    destruct (first_by_priority priority_order (r :: rest)) as [best|] eqn:Eb.
    - exists best. split; [reflexivity|].
      destruct (DEProps.first_by_priority_Some _ _ _ Eb)
        as (higher & ty & lower & _ & _ & -> & _ & Hc & _).
      rewrite Hc. apply in_elt.
    - exfalso.
      assert (Hin : In r (filter (fun d => str_in (class_name d) resource_classes) ds))
        by (rewrite E; now left).
      apply filter_In in Hin as [_ Hc].
      apply DEProps.str_in_In, priority_order_resource_classes in Hc.
      exact (DEProps.first_by_priority_None _ _ Eb r (or_introl eq_refl) Hc). }
  split.
  - unfold make_decision, decide_from, _select_best_resource.
    rewrite Hres, Hthr.
    change (inventory (update_game_state self vision_data)) with (inventory self).
    destruct (num_lt _ 20); [reflexivity|].
    rewrite <- (hd_error_filter (fun d => str_in (class_name d) threat_classes) ds).
    destruct (filter (fun d => str_in (class_name d) threat_classes) ds) as [|t ts];
      cbn [hd_error]; [|reflexivity].
    destruct (num_lt _ 30); [reflexivity|].
    rewrite <- Hfilter.
    remember (filter (fun d => str_in (class_name d) resource_classes) ds)
      as rs eqn:E in *.
    destruct rs as [|r rest]; [reflexivity|].
    destruct (Hsome r rest eq_refl) as (best & Hb & _).
    rewrite <- Hfilter in Hb. now rewrite Hb.
  - intros Hne. unfold _select_best_resource. rewrite Hres in *.
    remember (filter (fun d => str_in (class_name d) resource_classes) ds)
      as rs eqn:E in *.
    destruct rs as [|r rest]; [congruence|].
    destruct (Hsome r rest eq_refl) as (best & Hb & Hc).
    exists best. rewrite <- Hfilter in Hb. rewrite Hb.
    repeat split; [|exact Hc]. now rewrite <- Hfilter.
Qed.


Lemma run_app (self : Engine) (a b : list Call) :
  run self (a ++ b) = run (run self a) b.
Proof. unfold run. apply fold_left_app. Qed.

(** A field that the calls of [calls] each leave as it is, is left as
    it is by the run of them. *)
Lemma run_keeps {A : Type} (field : Engine -> A) (ok : Call -> Prop)
    (self : Engine) (calls : list Call) :
  (forall e c, ok c -> field (fst (do_call e c)) = field e) ->
  Forall ok calls -> field (run self calls) = field self.
Proof.
  intros Hstep H. revert self.
  induction H as [|c calls Hc _ IH]; intros self; [reflexivity|].
  unfold run in *. cbn [fold_left]. rewrite IH. now apply Hstep.
Qed.

(** X13.  Each field of the engine is changed by its own call and by no
    other.  [get_state] returns what the last [set_state] stored,
    whatever calls came after it, and [make_decision] never changes the
    state; health and hunger change only by an update whose payload has
    them; the lists of threats and resources are those of the last
    update; the configuration never changes. *)
Theorem fields_change_only_by_their_call (self : Engine) (before after : list Call) :
  (Forall not_set_state after ->
   current_state (run self after) = current_state self /\
   forall s, get_state (run self (before ++ call_set_state s :: after)) = s)
  /\ (Forall no_health after -> health (run self after) = health self)
  /\ (Forall no_hunger after -> hunger (run self after) = hunger self)
  /\ (Forall not_update after ->
      (nearby_threats (run self after) = nearby_threats self /\
       nearby_resources (run self after) = nearby_resources self) /\
      forall vision_data,
        let self' := run self (before ++ call_update_game_state vision_data :: after) in
        let detections :=
          match vd_detections vision_data with Some ds => ds | None => [] end in
        nearby_threats self' =
          filter (fun d => str_in (class_name d) threat_classes) detections /\
        nearby_resources self' =
          filter (fun d => str_in (class_name d) resource_classes) detections)
  /\ config (run self after) = config self.
Proof.
  split; [|split; [|split; [|split]]].
  - intros H.
    assert (Hk : forall e : Engine, current_state (run e after) = current_state e).
    { intros e. apply (run_keeps (fun e : Engine => current_state e) not_set_state); [|exact H].
      intros e0 c Hc. now destruct c. }
    split; [apply Hk|]. intros s.
    unfold get_state. rewrite run_app.
    change (call_set_state s :: after) with ([call_set_state s] ++ after).
    rewrite run_app, Hk. reflexivity.
  - apply (run_keeps (fun e : Engine => health e) no_health). intros e c Hc.
    destruct c; try reflexivity. cbn in *. now rewrite Hc.
  - apply (run_keeps (fun e : Engine => hunger e) no_hunger). intros e c Hc.
    destruct c; try reflexivity. cbn in *. now rewrite Hc.
  - intros H.
    assert (Ht : forall e : Engine, nearby_threats (run e after) = nearby_threats e).
    { intros e. apply (run_keeps (fun e : Engine => nearby_threats e) not_update); [|exact H].
      intros e0 c Hc. now destruct c. }
    assert (Hr : forall e : Engine, nearby_resources (run e after) = nearby_resources e).
    { intros e. apply (run_keeps (fun e : Engine => nearby_resources e) not_update); [|exact H].
      intros e0 c Hc. now destruct c. }
    split; [split; [apply Ht|apply Hr]|].
    intros vision_data. cbn zeta. rewrite run_app.
    change (call_update_game_state vision_data :: after)
      with ([call_update_game_state vision_data] ++ after).
    rewrite run_app, Ht, Hr. split; reflexivity.
  - apply (run_keeps (fun e : Engine => config e) (fun _ => True)).
    + intros e c _. now destruct c.
    + clear. induction after; now constructor.
Qed.

(** X14.  [should_engage_combat] and [make_decision] agree one way: when
    [should_engage_combat] says yes, [make_decision] neither heals nor
    flees, and with a threat near it decides combat against the first
    one.  Not the other way: at health 80 with a wolf near,
    [make_decision] decides combat and [should_engage_combat] says no. *)
Theorem engage_implies_combat (self : Engine) (threat : Detection) :
  (should_engage_combat self threat = Some true ->
   num_lt (health self) 20 = false /\ num_lt (health self) 50 = false /\
   action (make_decision self) <> "heal" /\
   action (make_decision self) <> "flee" /\
   forall first rest, nearby_threats self = first :: rest ->
     make_decision self = mkDecision "combat" HIGH [("threat", VDetection first)])
  /\ (exists (e : DecisionEngine unit unit) (t : Detection),
        make_decision e = mkDecision "combat" HIGH [("threat", VDetection t)] /\
        should_engage_combat e t = Some false).
Proof.
  split.
  - unfold should_engage_combat.
    destruct (evaluate_threat_level self threat) as [tl|]; [|discriminate].
    destruct (num_lt (health self) 40); [discriminate|].
    destruct ((0.8 <? tl)%float && num_lt (health self) 70); [discriminate|].
    intros [= H]. apply andb_true_iff in H as [Hgt _].
    pose proof (DEProps.num_gt_not_lt _ 20 60 ltac:(lia) Hgt) as H20.
    pose proof (DEProps.num_gt_not_lt _ 50 60 ltac:(lia) Hgt) as H50.
    split; [exact H20|]. split; [exact H50|].
    unfold make_decision. rewrite H20, H50.
    repeat split.
    + destruct (nearby_threats self); [|discriminate].
      destruct (num_lt (hunger self) 30); [discriminate|].
      destruct (nearby_resources self); [|discriminate].
      destruct (Z.ltb _ 5); discriminate.
    + destruct (nearby_threats self); [|discriminate].
      destruct (num_lt (hunger self) 30); [discriminate|].
      destruct (nearby_resources self); [|discriminate].
      destruct (Z.ltb _ 5); discriminate.
    + now intros first rest ->.
  - exists (Samples.engine 80 [Samples.wolf] []), Samples.wolf.
    split; reflexivity.
Qed.

(** The sign of a product: not negative, unless one factor is below 0
    and the other above. *)
Lemma SF64mul_sign_cases (x y : spec_float) :
  sf_nonneg (SF64mul x y)
  \/ (SFltb x (S754_zero false) = true /\ SFltb (S754_zero false) y = true)
  \/ (SFltb (S754_zero false) x = true /\ SFltb y (S754_zero false) = true).
Proof.
  destruct x as [sx|[|]| |[|] mx ex], y as [sy|[|]| |[|] my ey];
    try (left; exact I); try (left; reflexivity);
    try (right; left; split; reflexivity);
    try (right; right; split; reflexivity);
    left; apply DEProps.sf_signed_nonneg, DEProps.binary_round_aux_signed.
Qed.

Lemma threat_value_nonneg_size (base size : float) :
  sf_nonneg (Prim2SF base) -> sf_nonneg (Prim2SF size) ->
  sf_nonneg (Prim2SF (base * (1 + py_min 1 (size / 10000)))%float).
Proof.
  intros Hb Hs.
  rewrite mul_spec. apply DEProps.SF64mul_nonneg; [exact Hb|].
  rewrite add_spec.
  change (Prim2SF 1) with (S754_finite false 4503599627370496 (-52)).
  apply DEProps.SF64add_nonneg, DEProps.py_min_one_nonneg.
  rewrite div_spec.
  change (Prim2SF 10000) with (S754_finite false 5497558138880000 (-39)).
  now apply DEProps.SF64div_nonneg.
Qed.

(** X15.  [evaluate_threat_level] on any box of four floats, NaN and
    infinities included: the level is at most 1 (so it is not a NaN);
    it is at least 0 unless the box is inverted in one direction only
    (width below 0 and height above, or the reverse), and for such a box
    it can be negative: a wolf in the box [100, 0, 0, 1000] has a level
    below 0. *)
Theorem threat_level_any_box (self : Engine) (cid : Z) (cname : string)
    (conf x1 y1 x2 y2 : float) (more : list float) (ctr : float * float) :
  let threat := mkDetection cid cname conf (x1 :: y1 :: x2 :: y2 :: more) ctr in
  let width := (x2 - x1)%float in
  let height := (y2 - y1)%float in
  (exists r,
      evaluate_threat_level self threat = Some r /\
      (r <=? 1)%float = true /\
      ((0 <=? r)%float = true
       \/ ((width <? 0)%float = true /\ (0 <? height)%float = true)
       \/ ((0 <? width)%float = true /\ (height <? 0)%float = true)))
  /\ (exists r,
        evaluate_threat_level self
          (mkDetection cid "wolf" conf [100; 0; 0; 1000]%float ctr) = Some r /\
        (r <? 0)%float = true).
Proof.
  cbn zeta. split.
  - exists (threat_level_formula cname x1 y1 x2 y2).
    split.
    { unfold evaluate_threat_level, threat_level_formula.
      cbn [bbox class_name nth_error].
      now rewrite DEProps.threat_ratings_base_rating. }
    unfold threat_level_formula.
    set (x := (base_rating cname * (1 + py_min 1 ((x2 - x1) * (y2 - y1) / 10000)))%float).
    split.
    { unfold py_min. destruct (x <? 1)%float eqn:E; [|reflexivity].
      rewrite leb_spec. apply DEProps.SFltb_SFleb. now rewrite <- ltb_spec. }
    rewrite !ltb_spec. change (Prim2SF 0) with (S754_zero false).
    destruct (SF64mul_sign_cases (Prim2SF (x2 - x1)) (Prim2SF (y2 - y1)))
      as [Hnn|[H|H]]; [left|right; left; exact H|right; right; exact H].
    apply DEProps.py_min_one_bounds. unfold x.
    apply threat_value_nonneg_size; [apply DEProps.base_rating_nonneg|].
    now rewrite mul_spec.
  - eexists. split; reflexivity.
Qed.

(** X16.  A short box raises, and nothing else does:
    [evaluate_threat_level] and [should_engage_combat] raise exactly
    when [bbox] has fewer than four entries ([should_engage_combat] does
    so even at a health below 40, for which it would return false).  The
    level depends on the class name and the first four entries of the
    box only, not on the engine nor on the rest of the detection. *)
Theorem short_box_raises (self self' : Engine) (threat threat' : Detection) :
  (evaluate_threat_level self threat = None <-> List.length (bbox threat) < 4)
  /\ (should_engage_combat self threat = None <-> List.length (bbox threat) < 4)
  /\ (class_name threat = class_name threat' ->
      firstn 4 (bbox threat) = firstn 4 (bbox threat') ->
      evaluate_threat_level self threat = evaluate_threat_level self' threat').
Proof.
  assert (H : evaluate_threat_level self threat = None <->
              List.length (bbox threat) < 4).
  { unfold evaluate_threat_level.
    destruct (bbox threat) as [|a [|b [|c [|d l]]]]; cbn [nth_error List.length];
      split; try reflexivity; try lia; try discriminate. }
  split; [exact H|]. split.
  - rewrite <- H. unfold should_engage_combat.
    destruct (evaluate_threat_level self threat) as [tl|]; [|tauto].
    split; [|discriminate].
    destruct (num_lt (health self) 40); [discriminate|].
    destruct ((0.8 <? tl)%float && num_lt (health self) 70); discriminate.
  - unfold evaluate_threat_level. intros -> Hb.
    destruct (bbox threat) as [|a [|b [|c [|d l]]]],
             (bbox threat') as [|a' [|b' [|c' [|d' l']]]];
      cbn [firstn] in Hb; try discriminate; try reflexivity.
    injection Hb as -> -> -> ->. reflexivity.
Qed.

End Engine.


(** The state stored survives a decision and an update. *)
Lemma fields_change_only_by_their_call_witness :
  get_state
    (run (DecisionEngine_init unit tt)
       ([call_make_decision] ++
        call_set_state COMBAT ::
        [call_make_decision;
         call_update_game_state (mkVisionData (Some [Samples.wolf]) None None)])) =
  COMBAT.
Proof.
  destruct (fields_change_only_by_their_call unit unit (DecisionEngine_init unit tt)
              [call_make_decision]
              [call_make_decision;
               call_update_game_state (mkVisionData (Some [Samples.wolf]) None None)])
    as (H & _).
  apply H. repeat constructor.
Defined.

(** At health 100 a boar is engaged, and the decision is combat. *)
Lemma engage_implies_combat_witness :
  make_decision (Samples.engine 100 [Samples.boar] []) =
  mkDecision "combat" HIGH [("threat", VDetection Samples.boar)].
Proof.
  destruct (engage_implies_combat unit unit (Samples.engine 100 [Samples.boar] [])
              Samples.boar) as ((_ & _ & _ & _ & H) & _); [reflexivity|].
  apply (H Samples.boar []). reflexivity.
Defined.

End DEExtra.

(** * Properties of the built tree and of the frame loop *)

Module AppExtra.
Import BT DE BTNotions App.

Section Built.

Variables Frame W Controllers : Type.
Variable controllers : Controllers.

Abbreviation built := (root (build_rust_ai_tree (Frame := Frame) (W := W) controllers)).

Lemma built_never_running : never_running built.
Proof.
  unfold never_running. cbn.
  repeat (constructor; [first [exact I | intros ctx w; discriminate]|]).
  constructor.
Qed.

Lemma built_cursors_zero : cursors_zero built.
Proof.
  unfold cursors_zero. cbn.
  repeat (constructor; [first [now left | now right]|]).
  constructor.
Qed.

Lemma built_reset : reset built = built.
Proof. reflexivity. Qed.

(** A tick of the tree as built. *)
Lemma built_tick (ctx : Context Frame) (w : W) :
  status_of (tick built ctx w) = SUCCESS
  /\ world_of (tick built ctx w) = w
  /\ map node_status (node_children (node_of (tick built ctx w))) =
     if guard_survival ctx then [SUCCESS; FAILURE; FAILURE; FAILURE]
     else if guard_combat ctx then [FAILURE; SUCCESS; FAILURE; FAILURE]
     else if guard_gathering ctx then [FAILURE; FAILURE; SUCCESS; FAILURE]
     else [FAILURE; FAILURE; FAILURE; SUCCESS].
Proof.
  unfold guard_survival, guard_combat, guard_gathering, status_of, world_of, node_of.
  cbn -[num_lt Z.ltb Z.of_nat].
  destruct (num_lt _ 30); cbn -[num_lt Z.ltb Z.of_nat]; [repeat split|].
  destruct (0 <? Z.of_nat (List.length (dict_get (ctx_threats ctx) [])))%Z;
    cbn -[num_lt Z.ltb Z.of_nat]; [repeat split|].
  destruct (0 <? Z.of_nat (List.length (dict_get (ctx_resources ctx) [])))%Z;
    cbn -[num_lt Z.ltb Z.of_nat]; repeat split.
Qed.

Lemma as_built_tick (t : BehaviorNode (Context Frame) W) (ctx : Context Frame) (w : W) :
  as_built controllers t ->
  status_of (tick t ctx w) = SUCCESS
  /\ world_of (tick t ctx w) = w
  /\ as_built controllers (node_of (tick t ctx w)).
Proof.
  intros (Hn & Hz & Hr).
  destruct (BTExtra.tick_reset_alike _ _ t ctx Hz w) as [Hs Hw].
  rewrite Hr in Hs, Hw.
  destruct (built_tick ctx w) as (Hbs & Hbw & _).
  unfold status_of, world_of in *.
  split; [congruence|]. split; [congruence|].
  split; [now apply BTExtra.never_running_tick|].
  split; [now apply BTExtra.never_running_cursors|].
  now rewrite BTExtra.tick_reset.
Qed.

(** X10.  The tree of [build_rust_ai_tree] always succeeds: whatever the
    contexts, every tick returns Success, none returns Failure or
    Running, the leaves leave the world as it is, and the tree stays the
    built one but for the statuses stored in it. *)
Theorem built_tree_always_succeeds (ctxs : list (Context Frame)) (w : W)
    (ctx : Context Frame) :
  let '(sts, t, w1) := tick_many built ctxs w in
  Forall (fun s => s = SUCCESS) sts
  /\ w1 = w
  /\ reset t = built
  /\ status_of (tick t ctx w1) = SUCCESS
  /\ world_of (tick t ctx w1) = w1.
Proof.
  assert (H : forall t, as_built controllers t ->
            let '(sts, t', w1) := tick_many t ctxs w in
            Forall (fun s => s = SUCCESS) sts /\ w1 = w /\ as_built controllers t').
  { revert w. induction ctxs as [|c rest IH]; intros w t Ht.
    - cbn [tick_many]. repeat split; [constructor|apply Ht..].
    - cbn [tick_many].
      destruct (as_built_tick t c w Ht) as (Hs & Hw & Ht1).
      unfold status_of, world_of, node_of in *.
      destruct (tick t c w) as [[s t1] w1]. cbn [fst snd] in *. subst s w1.
      specialize (IH w t1 Ht1).
      destruct (tick_many t1 rest w) as [[sts t2] w2].
      destruct IH as (Hsts & -> & Ht2).
      split; [now constructor|]. now split. }
  specialize (H built (conj built_never_running (conj built_cursors_zero built_reset))).
  destruct (tick_many built ctxs w) as [[sts t] w1].
  destruct H as (Hsts & -> & Ht).
  destruct (as_built_tick t ctx w Ht) as (Hs & Hw & _).
  repeat split; try assumption. apply Ht.
Qed.

(** X11.  The strategies of the built tree are tried in the order
    survival, combat, gathering, exploration, and the first whose guard
    holds is the one that runs: after a tick of the tree as built, that
    strategy has status Success, the ones before it Failure, and the ones
    after it were not ticked (still Failure).  The guards are: health
    (100 when missing) below 30; a threat in the context; a resource in
    the context. *)
Theorem built_tree_strategy_order (ctx : Context Frame) (w : W) :
  map node_name (node_children built) =
    ["Survival"; "Combat"; "Gathering"; "Explore"]
  /\ map node_status (node_children (node_of (tick built ctx w))) =
     if num_lt (match ctx_health ctx with Some h => h | None => PyInt 100 end) 30
     then [SUCCESS; FAILURE; FAILURE; FAILURE]
     else if match ctx_threats ctx with Some (_ :: _) => true | _ => false end
     then [FAILURE; SUCCESS; FAILURE; FAILURE]
     else if match ctx_resources ctx with Some (_ :: _) => true | _ => false end
     then [FAILURE; FAILURE; SUCCESS; FAILURE]
     else [FAILURE; FAILURE; FAILURE; SUCCESS].
Proof.
  split; [reflexivity|].
  destruct (built_tick ctx w) as (_ & _ & H). rewrite H.
  unfold guard_survival, guard_combat, guard_gathering, dict_get.
  destruct (num_lt _ 30); [reflexivity|].
  destruct (ctx_threats ctx) as [[|? ?]|], (ctx_resources ctx) as [[|? ?]|];
    reflexivity.
Qed.

End Built.

Section Loop.

Variables Frame Config W : Type.

Abbreviation Player := (RustAIPlayer Frame Config W).

(** The first child of a tree as built fails when health is not below
    30. *)
Lemma survival_fails (t : BehaviorNode (Context Frame) W) (ctx : Context Frame) (w : W) :
  as_built tt t -> guard_survival ctx = false ->
  hd_error (map node_status (node_children (node_of (tick t ctx w)))) = Some FAILURE.
Proof.
  intros (_ & Hz & Hr) Hg.
  destruct t as [| |name st cs i|name st cs i|]; try discriminate.
  assert (i = 0) as ->.
  { inversion Hz as [|? ? [Hc|Hc] _]; cbn in Hc; congruence. }
  destruct cs as [|c0 rest]; [discriminate|].
  injection Hr as _ Hc0 _.
  apply (BTExtra.cursors_zero_children _ _ _ _) in Hz.
  cbn [node_children] in Hz. inversion Hz as [|? ? Hz0 _]; subst.
  destruct (BTExtra.tick_reset_alike _ _ c0 ctx Hz0 w) as [Hs _].
  pose proof (BTExtra.tick_status_stored _ _ c0 ctx w) as Hst.
  unfold node_of, status_of in *. rewrite Hc0 in Hs.
  assert (Hf : fst (fst (tick c0 ctx w)) = FAILURE).
  { rewrite Hs. unfold guard_survival in Hg. cbn -[num_lt]. now rewrite Hg. }
  clear Hs. cbn [tick selector_loop].
  destruct (tick c0 ctx w) as [[s c0'] w1]. cbn [fst snd] in *.
  rewrite Hf in *. clear Hf.
  destruct (selector_loop _ rest 0 1 w1) as [[[s2 j] rest'] w2].
  cbn [fst snd node_children map hd_error]. now rewrite Hst.
Qed.

Lemma process_frame_keeps (p : Player) (frame : Frame) (detections : list Detection)
    (w : W) :
  loop_invariant p ->
  let '(p', result, w') := process_frame p frame detections w in
  loop_invariant p'
  /\ frame_count p' = frame_count p
  /\ w' = w
  /\ res_decision result = frame_decision detections
  /\ res_behavior_status result = SUCCESS.
Proof.
  intros (Hh & Hu & Hi & Hs & Hb & _).
  unfold process_frame, BehaviorTree_tick. cbv zeta.
  set (engine := update_game_state (decision_engine p)
                   (engine_view (mkFrameData detections frame (frame_count p)))).
  assert (Hh' : health engine = PyInt 100) by exact Hh.
  assert (Hu' : hunger engine = PyInt 100) by exact Hu.
  set (ctx := {| ctx_decision := Some (make_decision engine);
                 ctx_vision_data := Some (mkFrameData detections frame (frame_count p));
                 ctx_health := Some (health engine);
                 ctx_threats := Some (nearby_threats engine);
                 ctx_resources := Some (nearby_resources engine) |}).
  assert (Hg : guard_survival ctx = false).
  { unfold guard_survival, ctx. cbn [ctx_health dict_get]. now rewrite Hh'. }
  destruct (AppExtra.as_built_tick _ _ _ tt _ ctx w Hb) as (Hst & Hw & Hb').
  pose proof (survival_fails _ ctx w Hb Hg) as Hsurv.
  unfold status_of, world_of, node_of in *.
  destruct (tick (root (behavior_tree p)) ctx w) as [[s t] w'].
  cbn [fst snd] in *. subst s w'.
  unfold loop_invariant.
  cbn [decision_engine behavior_tree frame_count res_decision res_behavior_status root].
  destruct Hb' as (Hb1 & Hb2 & Hb3).
  repeat split; try assumption.
  destruct (DEExtra.make_decision_update _ _ (decision_engine p)
              (engine_view (mkFrameData detections frame (frame_count p)))) as [Hd _].
  transitivity (DENotions.decide_from (health engine) (hunger engine)
                  (List.length (inventory (decision_engine p))) detections);
    [exact Hd|].
  rewrite Hh', Hu', Hi. reflexivity.
Qed.

(** X17.  The frame loop.  [process_frame] hands the engine a payload
    without health or hunger, so over any frames health and hunger stay
    100, the inventory empty and the state IDLE; the decision of each
    frame depends on its detections alone and is combat (against the
    first threat detected), gather_resource or explore to find resources,
    never heal, flee or find_food; the tree returns Success at every
    frame, its Survival strategy fails at every frame, and the counter
    counts the frames. *)
Theorem frame_loop (cfg : Config) (frames : list (Frame * list Detection)) (w : W) :
  let '(p, results, w') := run_frames (RustAIPlayer_init W cfg) frames w in
  health (decision_engine p) = PyInt 100
  /\ hunger (decision_engine p) = PyInt 100
  /\ inventory (decision_engine p) = []
  /\ current_state (decision_engine p) = IDLE
  /\ frame_count p = Z.of_nat (List.length frames)
  /\ w' = w
  /\ map res_decision results = map (fun f => frame_decision (snd f)) frames
  /\ Forall (fun r => res_behavior_status r = SUCCESS) results
  /\ hd_error (map node_status (node_children (root (behavior_tree p)))) =
     Some FAILURE.
Proof.
  assert (H : forall (p : Player),
            loop_invariant p ->
            let '(p', results, w') := run_frames p frames w in
            loop_invariant p'
            /\ frame_count p' = (frame_count p + Z.of_nat (List.length frames))%Z
            /\ w' = w
            /\ map res_decision results = map (fun f => frame_decision (snd f)) frames
            /\ Forall (fun r => res_behavior_status r = SUCCESS) results).
  { revert w. induction frames as [|[frame dets] rest IH]; intros w p Hp.
    - cbn [run_frames]. split; [exact Hp|].
      split; [cbn [List.length]; lia|]. repeat split. constructor.
    - cbn [run_frames]. unfold run_step.
      pose proof (process_frame_keeps p frame dets w Hp) as Hstep.
      destruct (process_frame p frame dets w) as [[p1 r1] w1].
      destruct Hstep as (Hp1 & Hc1 & -> & Hd1 & Hs1).
      set (p2 := {| config := config p1; decision_engine := decision_engine p1;
                    behavior_tree := behavior_tree p1;
                    frame_count := frame_count p1 + 1 |}).
      specialize (IH w p2 Hp1).
      destruct (run_frames p2 rest w) as [[p3 rs] w3].
      destruct IH as (Hp3 & Hc3 & -> & Hd3 & Hs3).
      split; [exact Hp3|].
      split; [rewrite Hc3; unfold p2; cbn [frame_count List.length]; lia|].
      split; [reflexivity|].
      split; [cbn [map snd]; congruence|].
      now constructor. }
  assert (Hinit : loop_invariant (RustAIPlayer_init (Frame := Frame) W cfg)).
  { repeat split; try reflexivity.
    - apply AppExtra.built_never_running.
    - apply AppExtra.built_cursors_zero. }
  specialize (H _ Hinit).
  destruct (run_frames (RustAIPlayer_init W cfg) frames w) as [[p results] w'].
  destruct H as ((Hh & Hu & Hi & Hs & _ & Hsurv) & Hc & Hw & Hd & Hst).
  repeat split; assumption.
Qed.

End Loop.

End AppExtra.
